(** * json-to-csv-nft: a shallow embedding of the metadata flattener

    The development follows [json-to-csv-nft.py].  Python values that come
    out of [json.loads] are modelled by the inductive type [pyval]; a Python
    [dict] is an association list kept in insertion order (the order is
    observable: it decides the trait columns of the CSV).  Strings are
    sequences of code points below 256, which is what [Stdlib.Strings.String]
    offers; the interpreter's optional limit on the number of digits accepted
    by [int] is taken as switched off.  Library code under the script
    ([urlparse], [pathlib], and what [str.format] does with a replacement
    field that is more than a bare name) is taken as a parameter. *)

From Stdlib Require Import List String Ascii ZArith NArith Bool Lia.
From Stdlib Require Import Permutation Sorted DecimalString DecimalPos.
Import ListNotations.

Local Open Scope string_scope.
Local Open Scope list_scope.
Local Open Scope Z_scope.

(** ** Strings, the way the script uses them *)

Module Str.

Definition is_empty (s : string) : bool :=
  match s with EmptyString => true | String _ _ => false end.

(** [s.startswith(p)] *)
Definition startswith (p s : string) : bool := String.prefix p s.

(** [s[n:]] *)
Fixpoint drop (n : nat) (s : string) : string :=
  match n, s with
  | O, _ => s
  | S _, EmptyString => EmptyString
  | S n', String _ r => drop n' r
  end.

(** [s.lstrip(chars)], the character set given as a predicate *)
Fixpoint lstrip (p : ascii -> bool) (s : string) : string :=
  match s with
  | EmptyString => EmptyString
  | String c r => if p c then lstrip p r else s
  end.

(** [s.rstrip(chars)] *)
Fixpoint rstrip (p : ascii -> bool) (s : string) : string :=
  match s with
  | EmptyString => EmptyString
  | String c r =>
      let r' := rstrip p r in
      if p c && is_empty r' then EmptyString else String c r'
  end.

Definition is_slash (c : ascii) : bool := Ascii.eqb c "/".

(** [s.replace(pat, "")]: every non-overlapping occurrence of [pat],
    scanning from the left, is removed.  [skip] counts the characters of
    an occurrence that are still to be dropped. *)
Fixpoint remove_all_from (pat : string) (skip : nat) (s : string) : string :=
  match s with
  | EmptyString => EmptyString
  | String c r =>
      match skip with
      | S k => remove_all_from pat k r
      | O =>
          if is_empty pat then String c (remove_all_from pat O r)
          else if startswith pat s
               then remove_all_from pat (String.length pat - 1) r
               else String c (remove_all_from pat O r)
      end
  end.

Definition remove_all (pat s : string) : string := remove_all_from pat O s.

(** [sep.join(parts)] *)
Fixpoint join (sep : string) (parts : list string) : string :=
  match parts with
  | [] => EmptyString
  | [p] => p
  | p :: rest => (p ++ sep ++ join sep rest)%string
  end.

Definition contains_char (c : ascii) (s : string) : bool :=
  existsb (Ascii.eqb c) (list_ascii_of_string s).

End Str.

(** ** Python values *)

#[local] Set Warnings "-register-all".

(** What [json.loads] can return.  A float is carried by its [repr]: the
    script only ever asks a float for its truth value and its string form. *)
Inductive pyval : Type :=
| VNone
| VBool (b : bool)
| VInt (z : Z)
| VFloat (repr : string)
| VStr (s : string)
| VList (l : list pyval)
| VDict (d : list (string * pyval)).

Definition dict := list (string * pyval).

(** [k in d] and [d.get(k)] / [d.get(k, default)] *)
Fixpoint dict_lookup {V : Type} (k : string) (d : list (string * V)) : option V :=
  match d with
  | [] => None
  | (k', v) :: rest => if String.eqb k k' then Some v else dict_lookup k rest
  end.

Definition dict_has {V : Type} (k : string) (d : list (string * V)) : bool :=
  match dict_lookup k d with Some _ => true | None => false end.

Definition dict_get (k : string) (d : dict) : pyval :=
  match dict_lookup k d with Some v => v | None => VNone end.

Definition dict_get_default (k : string) (dflt : pyval) (d : dict) : pyval :=
  match dict_lookup k d with Some v => v | None => dflt end.

(** [d[k] = v]: an existing key keeps its position and takes the new value,
    a new key goes to the end. *)
Fixpoint dict_set {V : Type} (k : string) (v : V) (d : list (string * V))
  : list (string * V) :=
  match d with
  | [] => [(k, v)]
  | (k', v') :: rest =>
      if String.eqb k k' then (k', v) :: rest else (k', v') :: dict_set k v rest
  end.

Definition dict_keys {V : Type} (d : list (string * V)) : list string := map fst d.

(** Truth value of a Python object, as [if x:] and [x or y] take it. *)
Definition truthy (v : pyval) : bool :=
  match v with
  | VNone => false
  | VBool b => b
  | VInt z => negb (z =? 0)
  | VFloat r => negb (String.eqb r "0.0" || String.eqb r "-0.0")
  | VStr s => negb (Str.is_empty s)
  | VList l => match l with [] => false | _ => true end
  | VDict d => match d with [] => false | _ => true end
  end.

(** [x or y] *)
Definition py_or (x y : pyval) : pyval := if truthy x then x else y.

(** *** [str] and [repr] *)

Definition str_of_Z (z : Z) : string := NilZero.string_of_int (Z.to_int z).

Definition hex_digit (n : N) : ascii :=
  ascii_of_N (if (n <? 10)%N then 48 + n else 87 + n)%N.

Definition is_printable (c : ascii) : bool :=
  let n := N_of_ascii c in
  ((32 <=? n) && (n <? 127) || (161 <=? n) && negb (n =? 173))%N.

Definition repr_char (quote c : ascii) : string :=
  if Ascii.eqb c "\" then "\\"
  else if Ascii.eqb c quote then String "\" (String quote EmptyString)
  else if Ascii.eqb c "009" then "\t"
  else if Ascii.eqb c "010" then "\n"
  else if Ascii.eqb c "013" then "\r"
  else if is_printable c then String c EmptyString
  else
    let n := N_of_ascii c in
    String "\" (String "x" (String (hex_digit (n / 16)) (String (hex_digit (n mod 16)) EmptyString))).

(** [repr] of a [str]: single quotes, unless the text has a single quote and
    no double quote. *)
Definition repr_str (s : string) : string :=
  let quote : ascii :=
    if Str.contains_char "039" s && negb (Str.contains_char "034" s)
    then "034"%char else "039"%char in
  String quote
    (String.concat EmptyString (map (repr_char quote) (list_ascii_of_string s))
     ++ String quote EmptyString)%string.

Fixpoint py_repr (v : pyval) : string :=
  match v with
  | VNone => "None"
  | VBool true => "True"
  | VBool false => "False"
  | VInt z => str_of_Z z
  | VFloat r => r
  | VStr s => repr_str s
  | VList l => ("[" ++ Str.join ", " (map py_repr l) ++ "]")%string
  | VDict d =>
      ("{" ++ Str.join ", "
                (map (fun '(k, x) => (repr_str k ++ ": " ++ py_repr x)%string) d)
           ++ "}")%string
  end.

(** [str(v)] *)
Definition py_str (v : pyval) : string :=
  match v with
  | VStr s => s
  | _ => py_repr v
  end.

(** *** [int] of a string *)

(** The blanks [int] skips around a number: tab to carriage return, the
    space, and the two blanks of the upper half (next line, no-break space). *)
Definition is_space (c : ascii) : bool :=
  let n := N_of_ascii c in
  ((9 <=? n) && (n <=? 13) || (n =? 32) || (n =? 133) || (n =? 160))%N.

Definition digit_of (c : ascii) : option Z :=
  let n := N_of_ascii c in
  if ((48 <=? n) && (n <=? 57))%N then Some (Z.of_N n - 48) else None.

Definition is_digit (c : ascii) : bool :=
  match digit_of c with Some _ => true | None => false end.

(** What the scanner of an integer literal has just read. *)
Inductive scanned := AtStart | AfterDigit | AfterUnderscore.

(** Decimal digits, single underscores allowed between two digits. *)
Fixpoint int_digits (acc : Z) (prev : scanned) (s : string) : option Z :=
  match s with
  | EmptyString => match prev with AfterDigit => Some acc | _ => None end
  | String c r =>
      match digit_of c with
      | Some d => int_digits (10 * acc + d) AfterDigit r
      | None =>
          if Ascii.eqb c "_"
          then match prev with
               | AfterDigit => int_digits acc AfterUnderscore r
               | _ => None
               end
          else None
      end
  end.

(** [int(s)] for a string [s]; [None] stands for [ValueError]. *)
Definition py_int (s : string) : option Z :=
  let t := Str.lstrip is_space (Str.rstrip is_space s) in
  match t with
  | String "+" r => int_digits 0 AtStart r
  | String "-" r => option_map Z.opp (int_digits 0 AtStart r)
  | _ => int_digits 0 AtStart t
  end.

(** ** Helpers shared by both modes *)

(** [re.search(r'(\d+)', stem)]: the leftmost maximal run of digits. *)
Fixpoint take_digits (s : string) : string :=
  match s with
  | EmptyString => EmptyString
  | String c r => if is_digit c then String c (take_digits r) else EmptyString
  end.

Fixpoint search_digits (s : string) : option string :=
  match s with
  | EmptyString => None
  | String c r => if is_digit c then Some (String c (take_digits r)) else search_digits r
  end.

(** [guess_token_id_from_filename], on the stem of the path. *)
Definition guess_token_id_from_filename (stem : string) : option Z :=
  match search_digits stem with
  | Some m => py_int m
  | None => None
  end.

Definition id_keys : list string := ["token_id"; "edition"; "tokenId"; "id"].

(** The loop of [get_token_id_from_json] over the remaining keys: a key that
    is missing, or whose value does not read as an integer, passes the turn
    to the next one. *)
Fixpoint token_id_among (ks : list string) (d : dict) : option Z :=
  match ks with
  | [] => None
  | k :: ks' =>
      match dict_lookup k d with
      | Some v =>
          match py_int (py_str v) with
          | Some n => Some n
          | None => token_id_among ks' d
          end
      | None => token_id_among ks' d
      end
  end.

Definition get_token_id_from_json (d : dict) : option Z := token_id_among id_keys d.

(** Truth value of an optional string, as in [prefix and ...] or
    [if args.metadata:]: it counts when it is given and not empty. *)
Definition given (o : option string) : option string :=
  match o with
  | Some p => if Str.is_empty p then None else Some p
  | None => None
  end.

Definition normalize_image (img : pyval) (prefix : option string) : string :=
  match img with
  | VStr s =>
      match given prefix with
      | Some p =>
          if Str.startswith "ipfs://" s || negb (Str.startswith "http" s)
          then
            let ipfs_path := Str.remove_all "ipfs://" s in
            let ipfs_path :=
              if Str.startswith "ipfs/" ipfs_path then Str.drop 5 ipfs_path
              else ipfs_path in
            (Str.rstrip Str.is_slash p ++ "/" ++ Str.lstrip Str.is_slash ipfs_path)%string
          else s
      | None => s
      end
  | _ => EmptyString
  end.

(** ** Trait extraction *)

(** [a.get("trait_type") or a.get("trait") or a.get("type")] *)
Definition trait_name_of (a : dict) : pyval :=
  py_or (py_or (dict_get "trait_type" a) (dict_get "trait" a)) (dict_get "type" a).

(** One turn of the loop over [attributes]. *)
Definition add_trait (trait_map : dict) (a : pyval) : dict :=
  match a with
  | VDict a =>
      let t := trait_name_of a in
      let v := dict_get_default "value" (VStr "") a in
      if truthy t then dict_set (py_str t) v trait_map else trait_map
  | _ => trait_map
  end.

(** The trait loop, started from the empty mapping, on [d.get("attributes", [])]. *)
Definition extract_traits (d : dict) : dict :=
  match dict_get_default "attributes" (VList []) d with
  | VList atts => fold_left add_trait atts []
  | _ => []
  end.

(** ** Normalized items *)

Record item : Type := Item {
  token_id : option Z;
  name : pyval;
  description : pyval;
  image : string;
  image_raw : pyval;
  external_url : pyval;
  animation_url : pyval;
  background_color : pyval;
  youtube_url : pyval;
  traits : dict;
  stem : string
}.

Inductive id_mode := FromFilename | FromJson.

(** The fields that [parse_json_file] and [normalize_one] fill in the same
    way, once the id and the stem are settled. *)
Definition build_item (tid : option Z) (d : dict) (image_prefix : option string)
    (stem : string) : item :=
  let image_raw := dict_get_default "image" (VStr "") d in
  {| token_id := tid;
     name := dict_get_default "name" (VStr "") d;
     description := dict_get_default "description" (VStr "") d;
     image := normalize_image image_raw image_prefix;
     image_raw := image_raw;
     external_url := dict_get_default "external_url" (VStr "") d;
     animation_url := dict_get_default "animation_url" (VStr "") d;
     background_color := dict_get_default "background_color" (VStr "") d;
     youtube_url := dict_get_default "youtube_url" (VStr "") d;
     traits := extract_traits d;
     stem := stem |}.

Definition resolve_id (id_from : option id_mode) (tid_fn tid_js : option Z) : option Z :=
  match id_from with
  | Some FromFilename => tid_fn
  | Some FromJson => tid_js
  | None => match tid_js with Some n => Some n | None => tid_fn end
  end.

(** [parse_json_file] on a document that has been read and decoded.  A top
    level that is not an object has no [get]: the function raises, which is
    [None] here. *)
Definition parse_json_file (file_stem : string) (doc : pyval)
    (id_from : option id_mode) (image_prefix : option string) : option item :=
  match doc with
  | VDict d =>
      let tid_fn := guess_token_id_from_filename file_stem in
      let tid_js := get_token_id_from_json d in
      Some (build_item (resolve_id id_from tid_fn tid_js) d image_prefix file_stem)
  | _ => None
  end.

(** [normalize_one] of [load_metadata_file] *)
Definition normalize_one (image_prefix : option string) (obj : dict)
    (key_for_stem : string) : item :=
  let tid := get_token_id_from_json obj in
  let stem :=
    if negb (Str.is_empty key_for_stem) then key_for_stem
    else match tid with Some n => str_of_Z n | None => "item" end in
  build_item tid obj image_prefix stem.

(** ** The filename column *)

(** The library code under [basename_from_url_or_path], [ext_from_name] and
    [render_filename_col].  It is not part of the script, so the development
    is parametric in it:
    - [urlparse s] is [Some (scheme, path)] of [urllib.parse.urlparse(s)],
      [None] when the call raises;
    - [path_name s] is [Path(s).name];
    - [path_suffix s] is [Path(s).suffix];
    - for a replacement field that looks further into its argument [v] (the
      attribute and index lookups [rest], as in [.name] or [[0]]) or converts
      it ([conv], the character after [!], the null character when there is
      none): [field_resolves v rest conv] tells whether the lookups and the
      conversion go through;
    - [format_field v rest conv spec] is the text that [format] then gives
      under the format specification [spec], [None] when it raises. *)
Class PathLib : Type := {
  urlparse : string -> option (string * string);
  path_name : string -> string;
  path_suffix : string -> string;
  field_resolves : pyval -> string -> ascii -> bool;
  format_field : pyval -> string -> ascii -> string -> option string
}.

Section Filename.

Context {lib : PathLib}.

Definition basename_from_url_or_path (s : pyval) : string :=
  match s with
  | VStr s =>
      if Str.is_empty s then EmptyString
      else
        match urlparse s with
        | Some (scheme, path) =>
            if negb (Str.is_empty scheme) && negb (Str.is_empty path)
            then path_name path
            else path_name s
        | None => path_name s
        end
  | _ => EmptyString
  end.

Definition ext_from_name (name dflt : string) : string :=
  let e := path_suffix name in
  if negb (Str.is_empty e) then e else dflt.

End Filename.

(** *** Exceptions and outcomes *)

(** The three [raise SystemExit(...)] of the script. *)
Inductive exit_reason : Type :=
| MetadataNotFound (path : string)
| NoJsonFiles
| UnsupportedStructure.

(** [FieldError] stands for whatever the library raises on a replacement
    field that is more than a bare name, while it looks into the argument,
    converts it or formats it (an [AttributeError], a [TypeError], a
    [ValueError], ...). *)
Inductive exn : Type :=
| ValueError
| KeyError (key : string)
| IndexError
| FieldError
| DecodeError                  (* the document could not be read or decoded *)
| SystemExit (why : exit_reason).

(** Outcome of a call that may raise. *)
Inductive outcome (A : Type) : Type :=
| Ok (a : A)
| Raise (e : exn).

Arguments Ok {A} a.
Arguments Raise {A} e.

Definition outcome_map {A B : Type} (f : A -> B) (o : outcome A) : outcome B :=
  match o with
  | Ok a => Ok (f a)
  | Raise e => Raise e
  end.

(** *** [str.format] with keyword arguments only *)

(** The template is read one character at a time.  Outside a field a
    doubled brace stands for itself; a field is its name, up to [!], [:] or
    the closing brace, with whatever stands between square brackets skipped
    over; then an optional conversion character; then an optional format
    specification, which ends at the closing brace that matches the opening
    one of the field and may hold fields of its own. *)
Inductive fmt_state : Type :=
| InText                      (* literal text *)
| AfterOpen                   (* a [{] has just been read *)
| AfterClose                  (* a [}] has just been read in literal text *)
| InName (name : string)      (* inside the name of a field *)
| InIndex (name : string)     (* inside the square brackets of a name *)
| AfterBang (name : string)   (* the [!] of a conversion has just been read *)
| AfterConv (name : string) (conv : ascii)
| InSpec (name : string) (conv : ascii) (spec : string)
         (nested : nat)       (* opening braces of the specification still open *)
         (expand : bool).     (* the specification holds an opening brace *)

(** A replacement field as read: the null character stands for no
    conversion, as in the interpreter. *)
Record repl_field : Type := ReplField {
  f_name : string;
  f_conv : ascii;
  f_spec : string;
  f_expand : bool
}.

Inductive fmt_token : Type :=
| Lit (c : ascii)
| Repl (f : repl_field)
| Malformed.                  (* the reader gives up: [ValueError] *)

Definition no_conv : ascii := "000".

Definition snoc (s : string) (c : ascii) : string := s ++ String c EmptyString.

Fixpoint markup_from (st : fmt_state) (tmpl : string) : list fmt_token :=
  match tmpl with
  | EmptyString =>
      match st with
      | InText => []
      | _ => [Malformed]
      end
  | String c r =>
      let in_name (name : string) : list fmt_token :=
        if Ascii.eqb c "{" then [Malformed]
        else if Ascii.eqb c "[" then markup_from (InIndex (snoc name c)) r
        else if Ascii.eqb c "}"
             then Repl (ReplField name no_conv EmptyString false) :: markup_from InText r
        else if Ascii.eqb c ":" then markup_from (InSpec name no_conv EmptyString O false) r
        else if Ascii.eqb c "!" then markup_from (AfterBang name) r
        else markup_from (InName (snoc name c)) r in
      match st with
      | InText =>
          if Ascii.eqb c "{" then markup_from AfterOpen r
          else if Ascii.eqb c "}" then markup_from AfterClose r
          else Lit c :: markup_from InText r
      | AfterOpen =>
          if Ascii.eqb c "{" then Lit "{" :: markup_from InText r
          else in_name EmptyString
      | AfterClose =>
          if Ascii.eqb c "}" then Lit "}" :: markup_from InText r
          else [Malformed]
      | InName name => in_name name
      | InIndex name =>
          if Ascii.eqb c "]" then markup_from (InName (snoc name c)) r
          else markup_from (InIndex (snoc name c)) r
      | AfterBang name => markup_from (AfterConv name c) r
      | AfterConv name conv =>
          if Ascii.eqb c "}"
          then Repl (ReplField name conv EmptyString false) :: markup_from InText r
          else if Ascii.eqb c ":" then markup_from (InSpec name conv EmptyString O false) r
          else [Malformed]
      | InSpec name conv spec nested expand =>
          if Ascii.eqb c "{"
          then markup_from (InSpec name conv (snoc spec c) (S nested) true) r
          else if Ascii.eqb c "}"
               then match nested with
                    | O => Repl (ReplField name conv spec expand) :: markup_from InText r
                    | S n => markup_from (InSpec name conv (snoc spec c) n expand) r
                    end
               else markup_from (InSpec name conv (snoc spec c) nested expand) r
      end
  end.

Definition markup (tmpl : string) : list fmt_token := markup_from InText tmpl.

Definition all_digits (s : string) : bool :=
  negb (Str.is_empty s) && forallb is_digit (list_ascii_of_string s).

Definition digits_value (s : string) : Z :=
  fold_left (fun acc c => 10 * acc + match digit_of c with Some d => d | None => 0 end)
            (list_ascii_of_string s) 0.

(** Largest index a field may spell out ([PY_SSIZE_T_MAX] of a 64-bit build). *)
Definition ssize_max : Z := 9223372036854775807.

(** The object an argument name stands for.  There are no positional
    arguments, so an empty or numeric name always fails. *)
Definition field_value (kwargs : dict) (name : string) : outcome pyval :=
  if Str.is_empty name then Raise IndexError
  else if all_digits name then
    if digits_value name <=? ssize_max then Raise IndexError else Raise ValueError
  else
    match dict_lookup name kwargs with
    | Some v => Ok v
    | None => Raise (KeyError name)
    end.

(** The name of a field: the argument name, up to the first [.] or [[], and
    the lookups that follow it. *)
Fixpoint split_name (name : string) : string * string :=
  match name with
  | EmptyString => (EmptyString, EmptyString)
  | String c r =>
      if Ascii.eqb c "." || Ascii.eqb c "[" then (EmptyString, name)
      else let '(first, rest) := split_name r in (String c first, rest)
  end.

Definition arg_name (f : repl_field) : string := fst (split_name (f_name f)).

Section Format.

Context {lib : PathLib}.

(** One field: the argument is looked up, then looked into and converted;
    then the format specification is expanded when it holds fields of its
    own; then the object is formatted.  A bare name with an empty
    specification gives [str] of the argument. *)
Definition render_field (expand : string -> outcome string) (kwargs : dict)
    (f : repl_field) : outcome string :=
  let rest := snd (split_name (f_name f)) in
  match field_value kwargs (arg_name f) with
  | Raise e => Raise e
  | Ok v =>
      let bare := Str.is_empty rest && Ascii.eqb (f_conv f) no_conv in
      if bare || field_resolves v rest (f_conv f) then
        match (if f_expand f then expand (f_spec f) else Ok (f_spec f)) with
        | Raise e => Raise e
        | Ok spec =>
            if bare && Str.is_empty spec then Ok (py_str v)
            else match format_field v rest (f_conv f) spec with
                 | Some s => Ok s
                 | None => Raise FieldError
                 end
        end
      else Raise FieldError
  end.

Fixpoint render_tokens (expand : string -> outcome string) (kwargs : dict)
    (toks : list fmt_token) : outcome string :=
  match toks with
  | [] => Ok EmptyString
  | Lit c :: r => outcome_map (String c) (render_tokens expand kwargs r)
  | Repl f :: r =>
      match render_field expand kwargs f with
      | Ok s => outcome_map (String.append s) (render_tokens expand kwargs r)
      | Raise e => Raise e
      end
  | Malformed :: _ => Raise ValueError
  end.

(** Format specifications are expanded by the formatter itself, one level
    down; [depth] is what the interpreter calls the recursion depth. *)
Fixpoint build_string (depth : nat) (kwargs : dict) (tmpl : string) : outcome string :=
  match depth with
  | O => Raise ValueError
  | S d => render_tokens (build_string d kwargs) kwargs (markup tmpl)
  end.

(** [template.format] applied to keyword arguments *)
Definition py_format (tmpl : string) (kwargs : dict) : outcome string :=
  build_string 2 kwargs tmpl.

End Format.

Section Render.

Context {lib : PathLib}.

(** The keyword arguments that [render_filename_col] hands to [format]. *)
Definition filename_kwargs (tid : option Z) (stem : string) (image_raw : pyval) : dict :=
  let image_name := basename_from_url_or_path image_raw in
  let image_ext := ext_from_name (py_str (py_or (VStr image_name) (VStr ""))) ".png" in
  let safe_tid := match tid with None => EmptyString | Some n => str_of_Z n end in
  [ ("token_id", VStr safe_tid);
    ("stem", VStr stem);
    ("image", py_or image_raw (VStr ""));
    ("image_name", py_or (VStr image_name) (VStr ""));
    ("image_ext", py_or (VStr image_ext) (VStr ".png")) ].

Definition render_filename_col (tmpl : string) (tid : option Z) (stem : string)
    (image_raw : pyval) : outcome string :=
  py_format tmpl (filename_kwargs tid stem image_raw).

End Render.

(** ** Aggregated mode: [load_metadata_file] *)

(** What reading and decoding a file gives: [json.loads(p.read_text(...))]
    either returns a value or raises. *)
Inductive document : Type :=
| Undecodable
| Decoded (v : pyval).

(** The loop over a top-level list; [idx] is the position [enumerate] hands
    out, starting from 1. *)
Fixpoint items_of_list (image_prefix : option string) (idx : Z) (raw : list pyval)
  : list item :=
  match raw with
  | [] => []
  | VDict obj :: rest =>
      normalize_one image_prefix obj (str_of_Z idx)
        :: items_of_list image_prefix (idx + 1) rest
  | _ :: rest => items_of_list image_prefix (idx + 1) rest
  end.

(** The object of a top-level mapping, with its key as [token_id] when the
    object has none and the key reads as an integer. *)
Definition with_key_as_id (k : string) (obj : dict) : dict :=
  if dict_has "token_id" obj then obj
  else match py_int k with
       | Some n => dict_set "token_id" (VInt n) obj
       | None => obj
       end.

Fixpoint items_of_dict (image_prefix : option string) (raw : dict) : list item :=
  match raw with
  | [] => []
  | (k, VDict obj) :: rest =>
      normalize_one image_prefix (with_key_as_id k obj) k
        :: items_of_dict image_prefix rest
  | _ :: rest => items_of_dict image_prefix rest
  end.

Definition load_metadata_file (doc : document) (image_prefix : option string)
  : outcome (list item) :=
  match doc with
  | Undecodable => Raise DecodeError
  | Decoded (VList raw) => Ok (items_of_list image_prefix 1 raw)
  | Decoded (VDict raw) => Ok (items_of_dict image_prefix raw)
  | Decoded _ => Raise (SystemExit UnsupportedStructure)
  end.

(** ** The unified header *)

(** The two accumulators of the trait scan: the column order and the set of
    names met so far. *)
Record trait_scan : Type := Scan {
  all_traits_order : list string;
  trait_seen : list string
}.

Definition mem (t : string) (seen : list string) : bool := existsb (String.eqb t) seen.

Definition scan_trait (st : trait_scan) (t : string) : trait_scan :=
  if mem t (trait_seen st) then st
  else {| all_traits_order := all_traits_order st ++ [t];
          trait_seen := t :: trait_seen st |}.

Definition scan_item (st : trait_scan) (it : item) : trait_scan :=
  fold_left scan_trait (dict_keys (traits it)) st.

Definition unify_traits (items : list item) : list string :=
  all_traits_order (fold_left scan_item items {| all_traits_order := []; trait_seen := [] |}).

Definition default_base : list string :=
  ["token_id"; "name"; "description"; "image"; "external_url"; "animation_url";
   "background_color"; "youtube_url"].

(** ** Sorting for the aggregated CSV *)

(** [(x["token_id"] is None, x["token_id"])] *)
Definition sort_key (it : item) : bool * option Z :=
  (match token_id it with None => true | Some _ => false end, token_id it).

(** [a < b] on such pairs: the flags decide unless they agree, then the ids
    do; two absent ids are equal. *)
Definition key_lt (a b : bool * option Z) : bool :=
  let '(na, ta) := a in
  let '(nb, tb) := b in
  if Bool.eqb na nb
  then match ta, tb with
       | Some x, Some y => x <? y
       | _, _ => false
       end
  else negb na && nb.

(** [list.sort(key=...)] is a stable sort; insertion from the right is the
    plainest one. *)
Fixpoint insert_by_key (x : item) (l : list item) : list item :=
  match l with
  | [] => [x]
  | y :: r =>
      if key_lt (sort_key y) (sort_key x) then y :: insert_by_key x r
      else x :: y :: r
  end.

Fixpoint sort_by_token_id (l : list item) : list item :=
  match l with
  | [] => []
  | x :: r => insert_by_key x (sort_by_token_id r)
  end.

(** ** The driver *)

Record args : Type := Args {
  metadata : option string;
  emit_per_file : bool;
  do_sort : bool;
  id_from : option id_mode;
  image_prefix : option string;
  aggregate : option string;
  no_header : bool;
  only_traits : bool;
  fields : option (list string);
  filename_col : option string;
  filename_tmpl : string
}.

(** A file of the [json] folder: its name, its stem and what decoding it
    gives. *)
Record json_file : Type := JsonFile {
  file_name : string;
  file_stem : string;
  file_doc : document
}.

(** What the run finds on disk: the listing that [read_all_json] returns
    (already filtered and sorted) and the files a path may name. *)
Record world : Type := World {
  json_dir : list json_file;
  file_at : string -> option document
}.

(** Where a CSV goes: next to a source file of the folder (its name with the
    suffix replaced), under a name of its own in the output folder, or at the
    path of the aggregated CSV. *)
Inductive dest : Type :=
| PerFileOf (source_name : string)
| PerItem (csv_name : string)
| Aggregate (path : string).

Definition row := list pyval.

(** What a run leaves behind, in order: warnings about files that could not
    be read, and CSV files with the rows that reached them.  Creating
    folders and opening a CSV for writing are taken to succeed, and the other
    messages printed by the script are left out. *)
Inductive event : Type :=
| Warned (source_name : string)
| Wrote (d : dest) (rows : list row).

Record run : Type := Run {
  events : list event;
  status : outcome unit
}.

(** The item seen as the dictionary it is in the script. *)
Definition item_dict (it : item) : dict :=
  [ ("token_id", match token_id it with Some n => VInt n | None => VNone end);
    ("name", name it);
    ("description", description it);
    ("image", VStr (image it));
    ("image_raw", image_raw it);
    ("external_url", external_url it);
    ("animation_url", animation_url it);
    ("background_color", background_color it);
    ("youtube_url", youtube_url it);
    ("traits", VDict (traits it));
    ("_stem", VStr (stem it)) ].

Section Driver.

Context {lib : PathLib}.
Variable a : args.

Definition base_cols : list string :=
  if only_traits a then []
  else match fields a with
       | Some ((_ :: _) as fs) => filter (fun c => mem c default_base) fs
       | _ => default_base
       end.

Definition filename_col_name : option string := given (filename_col a).

Definition header (order : list string) : list string :=
  base_cols ++ (match filename_col_name with Some n => [n] | None => [] end) ++ order.

(** The row of one item, as the three writing loops build it. *)
Definition project_row (order : list string) (it : item) : outcome row :=
  let base := map (fun c => dict_get_default c (VStr "") (item_dict it)) base_cols in
  let cells := map (fun t => dict_get_default t (VStr "") (traits it)) order in
  match filename_col_name with
  | Some _ =>
      outcome_map (fun fn => base ++ [VStr fn] ++ cells)
        (render_filename_col (filename_tmpl a) (token_id it) (stem it) (image_raw it))
  | None => Ok (base ++ cells)
  end.

Definition header_rows (order : list string) : list row :=
  if no_header a then [] else [map VStr (header order)].

(** One per-item CSV: the header goes out first; the row follows unless
    building it raises, which leaves the file with what was written. *)
Definition write_one (order : list string) (d : dest) (it : item)
  : event * outcome unit :=
  match project_row order it with
  | Ok r => (Wrote d (header_rows order ++ [r]), Ok tt)
  | Raise e => (Wrote d (header_rows order), Raise e)
  end.

Fixpoint write_per_item (order : list string) (l : list (dest * item))
  : list event * outcome unit :=
  match l with
  | [] => ([], Ok tt)
  | (d, it) :: rest =>
      match write_one order d it with
      | (e, Ok _) =>
          let '(es, st) := write_per_item order rest in (e :: es, st)
      | (e, st) => ([e], st)
      end
  end.

(** The rows of the aggregated CSV, up to the first one that raises. *)
Fixpoint project_rows (order : list string) (l : list item)
  : list row * outcome unit :=
  match l with
  | [] => ([], Ok tt)
  | it :: rest =>
      match project_row order it with
      | Ok r => let '(rs, st) := project_rows order rest in (r :: rs, st)
      | Raise e => ([], Raise e)
      end
  end.

Definition agg_path (folder_mode : bool) : option string :=
  match given (aggregate a) with
  | Some p => Some p
  | None => if folder_mode then None else Some "metadata.csv"
  end.

Definition write_aggregate (order : list string) (folder_mode : bool)
    (items : list item) : list event * outcome unit :=
  match agg_path folder_mode with
  | Some p =>
      let agg_items := if do_sort a then sort_by_token_id items else items in
      let '(rs, st) := project_rows order agg_items in
      ([Wrote (Aggregate p) (header_rows order ++ rs)], st)
  | None => ([], Ok tt)
  end.

(** Everything after ingestion: the trait scan, the per-item CSVs and the
    aggregated CSV. *)
Definition emit (folder_mode : bool) (items_list : list (dest * item)) : run :=
  let items := map snd items_list in
  let order := unify_traits items in
  let per_item :=
    if folder_mode || emit_per_file a then write_per_item order items_list
    else ([], Ok tt) in
  match per_item with
  | (es, Ok _) =>
      let '(es', st) := write_aggregate order folder_mode items in
      {| events := es ++ es'; status := st |}
  | (es, st) => {| events := es; status := st |}
  end.

(** The reading loop of folder mode: a file that raises is reported and
    left out. *)
Fixpoint ingest (files : list json_file) : list event * list (dest * item) :=
  match files with
  | [] => ([], [])
  | f :: rest =>
      let '(ws, its) := ingest rest in
      let parsed :=
        match file_doc f with
        | Decoded v => parse_json_file (file_stem f) v (id_from a) (image_prefix a)
        | Undecodable => None
        end in
      match parsed with
      | Some it => (ws, (PerFileOf (file_name f), it) :: its)
      | None => (Warned (file_name f) :: ws, its)
      end
  end.

Definition main (w : world) : run :=
  match given (metadata a) with
  | Some path =>
      match file_at w path with
      | None => {| events := []; status := Raise (SystemExit (MetadataNotFound path)) |}
      | Some doc =>
          match load_metadata_file doc (image_prefix a) with
          | Ok items =>
              emit false (map (fun it => (PerItem (stem it ++ ".csv")%string, it)) items)
          | Raise e => {| events := []; status := Raise e |}
          end
      end
  | None =>
      match json_dir w with
      | [] => {| events := []; status := Raise (SystemExit NoJsonFiles) |}
      | files =>
          let '(ws, items_list) := ingest files in
          let r := emit true items_list in
          {| events := ws ++ events r; status := status r |}
      end
  end.

End Driver.

(** ** An instance of the library for plain file names

    Enough to run the development on relative file names such as [7.png] or
    [art/7.final.png] (no scheme, no trailing slash): [urlparse] of such a
    text has an empty scheme and the text as its path, the name is what
    follows the last slash and the suffix starts at the last dot of the name,
    unless that dot is its first or last character.  Of the fields that are
    more than a bare name it knows the conversions [!s] and [!r] of an
    argument, without lookups and with an empty format specification; it is
    not meant for templates with other such fields. *)
Module PlainNames.

Fixpoint after_last_slash (s : string) : string :=
  match s with
  | EmptyString => EmptyString
  | String c r =>
      if Str.contains_char "/" r then after_last_slash r
      else if Ascii.eqb c "/" then r else s
  end.

Fixpoint from_last_dot (s : string) : string :=
  match s with
  | EmptyString => EmptyString
  | String c r =>
      if Str.contains_char "." r then from_last_dot r
      else if Ascii.eqb c "." then s else EmptyString
  end.

Definition suffix (s : string) : string :=
  let n := after_last_slash s in
  match n with
  | EmptyString => EmptyString
  | String _ r =>
      let e := from_last_dot r in
      if (String.length e <=? 1)%nat then EmptyString else e
  end.

(** A conversion without lookups: [!s] and [!r]. *)
Definition resolves (v : pyval) (rest : string) (conv : ascii) : bool :=
  Str.is_empty rest && (Ascii.eqb conv "s" || Ascii.eqb conv "r").

Definition converted (v : pyval) (rest : string) (conv : ascii) (spec : string)
  : option string :=
  if resolves v rest conv && Str.is_empty spec
  then Some (if Ascii.eqb conv "r" then py_repr v else py_str v)
  else None.

#[export] Instance lib : PathLib :=
  {| urlparse := fun s => Some (EmptyString, s);
     path_name := after_last_slash;
     path_suffix := suffix;
     field_resolves := resolves;
     format_field := converted |}.

End PlainNames.

(** * Notions for the statements

    What follows names the things the properties speak about.  Where a
    notion renders a sentence of the specification rather than the script,
    its comment says so. *)

(** ** Trait columns *)

(** After the specification: the de-duplicated union in first-seen order.
    Every name stays at its first occurrence, later occurrences are dropped. *)
Fixpoint first_seen (l : list string) : list string :=
  match l with
  | [] => []
  | x :: r => x :: filter (fun y => negb (String.eqb y x)) (first_seen r)
  end.

(** All trait names of a batch: items in batch order, each item's names in
    its own insertion order. *)
Definition batch_trait_names (items : list item) : list string :=
  flat_map (fun it => dict_keys (traits it)) items.

(** An item that has nothing but traits. *)
Definition item_with_traits (t : dict) : item :=
  {| token_id := None; name := VStr ""; description := VStr ""; image := "";
     image_raw := VStr ""; external_url := VStr ""; animation_url := VStr "";
     background_color := VStr ""; youtube_url := VStr ""; traits := t; stem := "item" |}.

(** The membership set and the column list hold the same names. *)
Definition scan_ok (st : trait_scan) : Prop :=
  forall t, mem t (trait_seen st) = mem t (all_traits_order st).

(** ** Trait extraction *)

(** What one entry of [attributes] contributes to the trait mapping: the
    name it resolves to and its value, or nothing. *)
Definition entry_binding (a : pyval) : option (string * pyval) :=
  match a with
  | VDict a =>
      let t := trait_name_of a in
      if truthy t then Some (py_str t, dict_get_default "value" (VStr "") a)
      else None
  | _ => None
  end.

(** The contributions of a whole attribute list, in list order. *)
Definition bindings (atts : list pyval) : list (string * pyval) :=
  flat_map (fun a => match entry_binding a with Some b => [b] | None => [] end) atts.

(** The value of the first entry that resolves to [name] (the one the
    specification lets win) and of the last one. *)
Definition first_occurrence (name : string) (atts : list pyval) : option pyval :=
  dict_lookup name (bindings atts).

Definition last_occurrence (name : string) (atts : list pyval) : option pyval :=
  dict_lookup name (rev (bindings atts)).

(** The values an entry supplies under the three name keys, in the order
    [trait_type], [trait], [type]; a missing key supplies nothing. *)
Definition supplied_names (a : dict) : list pyval :=
  flat_map (fun k => match dict_lookup k a with Some v => [v] | None => [] end)
           ["trait_type"; "trait"; "type"].

(** After the specification: the value of the first key that is present. *)
Definition first_present_name (a : dict) : option pyval := hd_error (supplied_names a).

(** The first value that is true. *)
Definition first_true_name (a : dict) : option pyval := find truthy (supplied_names a).

Definition is_object (v : pyval) : bool :=
  match v with VDict _ => true | _ => false end.

(** Two entries for the same trait. *)
Definition twice_background : list pyval :=
  [ VDict [("trait_type", VStr "Background"); ("value", VStr "Blue")];
    VDict [("trait_type", VStr "Background"); ("value", VStr "Red")] ].

(** An entry whose first name key is present but empty. *)
Definition empty_trait_type : dict :=
  [("trait_type", VStr ""); ("trait", VStr "Color"); ("value", VStr "red")].

(** Adding names one at a time, each at its first meeting. *)
Definition add_name (order : list string) (t : string) : list string :=
  if mem t order then order else order ++ [t].

(** ** Token ids *)

(** The values under the id keys that are present and read as an integer,
    in the priority order of the keys. *)
Definition readable_ids (d : dict) : list Z :=
  flat_map (fun k =>
              match dict_lookup k d with
              | Some v => match py_int (py_str v) with Some n => [n] | None => [] end
              | None => []
              end)
           id_keys.

Definition no_digit (s : string) : bool :=
  forallb (fun c => negb (is_digit c)) (list_ascii_of_string s).

Definition starts_without_digit (s : string) : bool :=
  match s with
  | EmptyString => true
  | String c _ => negb (is_digit c)
  end.

(** [run] is the first run of decimal digits of [s]: nothing before it is a
    digit, it is not empty, and it stops only at a character that is not a
    digit or at the end. *)
Definition first_digit_run (s run : string) : Prop :=
  exists pre post,
    s = (pre ++ run ++ post)%string
    /\ no_digit pre = true
    /\ all_digits run = true
    /\ starts_without_digit post = true.

(** A document with both [token_id: "7"] and [edition: 3]. *)
Definition seven_and_three : dict := [("token_id", VStr "7"); ("edition", VInt 3)].

(** The number a decimal numeral writes, digits read from the left onto [acc]. *)
Fixpoint uint_value (acc : Z) (d : Decimal.uint) : Z :=
  match d with
  | Decimal.Nil => acc
  | Decimal.D0 l => uint_value (10 * acc + 0) l
  | Decimal.D1 l => uint_value (10 * acc + 1) l
  | Decimal.D2 l => uint_value (10 * acc + 2) l
  | Decimal.D3 l => uint_value (10 * acc + 3) l
  | Decimal.D4 l => uint_value (10 * acc + 4) l
  | Decimal.D5 l => uint_value (10 * acc + 5) l
  | Decimal.D6 l => uint_value (10 * acc + 6) l
  | Decimal.D7 l => uint_value (10 * acc + 7) l
  | Decimal.D8 l => uint_value (10 * acc + 8) l
  | Decimal.D9 l => uint_value (10 * acc + 9) l
  end.

(** ** Image normalization *)

(** [pat] occurs somewhere in [s]. *)
Fixpoint occurs (pat s : string) : bool :=
  Str.startswith pat s
  || match s with
     | EmptyString => false
     | String _ r => occurs pat r
     end.

(** [s] without its prefix [p], when it has it. *)
Definition strip_prefix (p s : string) : string :=
  if Str.startswith p s then Str.drop (String.length p) s else s.

Definition has_http_scheme (s : string) : bool :=
  Str.startswith "http://" s || Str.startswith "https://" s.

Definition is_string (v : pyval) : bool :=
  match v with VStr _ => true | _ => false end.

(** After the specification: image normalization in its words; the rewriting
    applies to a value with an [ipfs://] scheme or without an http(s) scheme,
    and strips the [ipfs://] prefix and a following [ipfs/] segment. *)
Definition normalize_image_as_stated (img : pyval) (prefix : option string) : string :=
  match img with
  | VStr s =>
      match given prefix with
      | Some p =>
          if Str.startswith "ipfs://" s || negb (has_http_scheme s)
          then (Str.rstrip Str.is_slash p ++ "/"
                ++ Str.lstrip Str.is_slash
                     (strip_prefix "ipfs/" (strip_prefix "ipfs://" s)))%string
          else s
      | None => s
      end
  | _ => EmptyString
  end.

Definition gateway : option string := Some "https://ipfs.io/ipfs".

(** The first, and the last, character of [s] satisfies [p]. *)
Definition starts_with_char (p : ascii -> bool) (s : string) : bool :=
  match s with
  | EmptyString => false
  | String c _ => p c
  end.

Fixpoint ends_with_char (p : ascii -> bool) (s : string) : bool :=
  match s with
  | EmptyString => false
  | String c EmptyString => p c
  | String _ r => ends_with_char p r
  end.

Definition all_chars (p : ascii -> bool) (s : string) : bool :=
  forallb p (list_ascii_of_string s).

(** An occurrence of [pat] begins within [u], where [u] is followed by
    [rest]. *)
Fixpoint begins_within (pat u rest : string) : bool :=
  match u with
  | EmptyString => false
  | String c u' =>
      Str.startswith pat (String c (u' ++ rest)) || begins_within pat u' rest
  end.

(** [r] is [s] with every occurrence of [pat] taken out: the occurrences
    are looked for from the left, each one behind the one before, and what
    stands between them is kept. *)
Inductive cut_out (pat : string) : string -> string -> Prop :=
| cut_none (s : string) : occurs pat s = false -> cut_out pat s s
| cut_next (u v r : string) :
    begins_within pat u (pat ++ v) = false ->
    cut_out pat v r ->
    cut_out pat (u ++ pat ++ v) (u ++ r).

(** After the amended claim: [result] is the gateway [p] without its
    trailing slashes, a slash, and the value [s] with every [ipfs://] taken
    out, then without a leading [ipfs/], then without its leading slashes. *)
Definition behind_gateway (p s result : string) : Prop :=
  exists gw slashes body lead path,
    p = (gw ++ slashes)%string
    /\ all_chars Str.is_slash slashes = true
    /\ ends_with_char Str.is_slash gw = false
    /\ cut_out "ipfs://" s body
    /\ strip_prefix "ipfs/" body = (lead ++ path)%string
    /\ all_chars Str.is_slash lead = true
    /\ starts_with_char Str.is_slash path = false
    /\ result = (gw ++ "/" ++ path)%string.

(** ** Order of the aggregated CSV *)







(** An item that is nothing but an id and a stem. *)
Definition item_with_id (tid : option Z) (stem : string) : item :=
  {| token_id := tid; name := VStr ""; description := VStr ""; image := "";
     image_raw := VStr ""; external_url := VStr ""; animation_url := VStr "";
     background_color := VStr ""; youtube_url := VStr ""; traits := []; stem := stem |}.

(** ** Templates *)

(** The pieces a well-formed template is made of: a plain character, a
    doubled brace standing for itself, a replacement field. *)
Inductive piece : Type :=
| Text (c : ascii)
| OpenBrace
| CloseBrace
| Field (name : string).

Definition piece_text (p : piece) : string :=
  match p with
  | Text c => String c EmptyString
  | OpenBrace => "{{"
  | CloseBrace => "}}"
  | Field n => ("{" ++ n ++ "}")%string
  end.

(** The template a list of pieces spells. *)
Fixpoint template_of (ps : list piece) : string :=
  match ps with
  | [] => EmptyString
  | p :: r => (piece_text p ++ template_of r)%string
  end.

(** The characters that make a field more than a bare name. *)
Definition is_field_markup (c : ascii) : bool :=
  Ascii.eqb c "!" || Ascii.eqb c ":" || Ascii.eqb c "." || Ascii.eqb c "[".

Definition is_brace (c : ascii) : bool := Ascii.eqb c "{" || Ascii.eqb c "}".

Definition name_char (c : ascii) : bool := negb (is_brace c) && negb (is_field_markup c).

Definition piece_ok (p : piece) : bool :=
  match p with
  | Text c => negb (is_brace c)
  | Field n => forallb name_char (list_ascii_of_string n)
  | _ => true
  end.

(** What the reader of the formatter makes of a piece. *)
Definition piece_token (p : piece) : fmt_token :=
  match p with
  | Text c => Lit c
  | OpenBrace => Lit "{"
  | CloseBrace => Lit "}"
  | Field n => Repl (ReplField n no_conv EmptyString false)
  end.

Definition field_names (ps : list piece) : list string :=
  flat_map (fun p => match p with Field n => [n] | _ => [] end) ps.

(** The variables the renderer offers. *)
Definition supported_names : list string :=
  ["token_id"; "stem"; "image"; "image_name"; "image_ext"].

Definition only_supported (names : list string) : bool :=
  forallb (fun n => mem n supported_names) names.

(** The text the pieces stand for once every field is replaced by the string
    form of its value. *)
Fixpoint substitute (kwargs : dict) (ps : list piece) : string :=
  match ps with
  | [] => EmptyString
  | Text c :: r => String c (substitute kwargs r)
  | OpenBrace :: r => String "{" (substitute kwargs r)
  | CloseBrace :: r => String "}" (substitute kwargs r)
  | Field n :: r => (py_str (dict_get n kwargs) ++ substitute kwargs r)%string
  end.

(** The names a template refers to: the argument name of each of its
    replacement fields and, where the format specification of a field holds
    fields of its own, theirs too.  [depth] bounds the nesting as the
    formatter does. *)
Fixpoint names_in (depth : nat) (tmpl : string) : list string :=
  match depth with
  | O => []
  | S d =>
      flat_map (fun t => match t with
                         | Repl f =>
                             arg_name f :: (if f_expand f then names_in d (f_spec f) else [])
                         | _ => []
                         end)
               (markup tmpl)
  end.

Definition referenced_names (tmpl : string) : list string := names_in 2 tmpl.

(** The keyword arguments have something under the name. *)
Definition found (kwargs : dict) (n : string) : Prop :=
  exists v, field_value kwargs n = Ok v.

(** What a field yields once its name is complete. *)
Definition field_outcome (kwargs : dict) (name : string) (rest : outcome string)
  : outcome string :=
  match field_value kwargs name with
  | Ok v => outcome_map (String.append (py_str v)) rest
  | Raise e => Raise e
  end.

(** The outcome of formatting, piece by piece. *)
Fixpoint fill (kwargs : dict) (ps : list piece) : outcome string :=
  match ps with
  | [] => Ok EmptyString
  | Text c :: r => outcome_map (String c) (fill kwargs r)
  | OpenBrace :: r => outcome_map (String "{") (fill kwargs r)
  | CloseBrace :: r => outcome_map (String "}") (fill kwargs r)
  | Field n :: r => field_outcome kwargs n (fill kwargs r)
  end.

(** ** Batches *)

(** What decoding and parsing one file of the folder gives. *)
Definition parsed (a : args) (f : json_file) : option item :=
  match file_doc f with
  | Decoded v => parse_json_file (file_stem f) v (id_from a) (image_prefix a)
  | Undecodable => None
  end.

Definition unreadable (a : args) (f : json_file) : bool :=
  match parsed a f with Some _ => false | None => true end.

(** The items of the folder that made it, each with the place of its CSV. *)
Definition kept (a : args) (files : list json_file) : list (dest * item) :=
  flat_map (fun f => match parsed a f with
                     | Some it => [(PerFileOf (file_name f), it)]
                     | None => []
                     end) files.

(** The Normalized Items of a run, in ingestion order. *)
Definition batch_items (a : args) (w : world) : list item :=
  match given (metadata a) with
  | Some path =>
      match file_at w path with
      | Some doc =>
          match load_metadata_file doc (image_prefix a) with
          | Ok items => items
          | _ => []
          end
      | None => []
      end
  | None => map snd (kept a (json_dir w))
  end.

(** The trait columns and the Unified Header of a run. *)
Definition batch_order (a : args) (w : world) : list string :=
  unify_traits (batch_items a w).

Definition batch_header (a : args) (w : world) : list string :=
  header a (batch_order a w).

(** A row is aligned with the header: as many cells as columns, and the
    empty string under every trait column whose trait the item lacks. *)
Definition aligned (a : args) (order : list string) (it : item) (r : row) : Prop :=
  List.length r = List.length (header a order)
  /\ forall i t,
       nth_error order i = Some t ->
       dict_lookup t (traits it) = None ->
       nth_error r (List.length (header a order) - List.length order + i) = Some (VStr "").

(** ** Positions in a top-level list *)

Fixpoint numbered (idx : Z) (l : list pyval) : list (Z * pyval) :=
  match l with
  | [] => []
  | v :: r => (idx, v) :: numbered (idx + 1) r
  end.

(** The entries that are objects, each with the position or key it came
    with. *)
Definition objects_of {K : Type} (l : list (K * pyval)) : list (K * dict) :=
  flat_map (fun '(i, v) => match v with VDict o => [(i, o)] | _ => [] end) l.

Definition count_objects (l : list pyval) : nat := List.length (filter is_object l).

(** Every row of [data] is the row of an item of [items]. *)
Definition rows_of {lib : PathLib} (a : args) (order : list string)
    (items : list item) (data : list row) : Prop :=
  Forall (fun r => exists it, In it items /\ project_row a order it = Ok r) data.

(** ** Inputs for worked examples *)

Definition attribute (k : string) (v : pyval) : pyval :=
  VDict [("trait_type", VStr k); ("value", v)].

Definition token (tid : pyval) (atts : list pyval) : pyval :=
  VDict [("token_id", tid); ("image", VStr "art/7.png"); ("attributes", VList atts)].

(** An aggregated run over a list of three entries, the second of which is
    not an object. *)
Definition metadata_args : args :=
  {| metadata := Some "metadata.json"; emit_per_file := true; do_sort := true;
     id_from := None; image_prefix := None; aggregate := None; no_header := false;
     only_traits := false; fields := Some ["token_id"; "image"];
     filename_col := Some "filename"; filename_tmpl := "{token_id}{image_ext}" |}.

Definition metadata_world : world :=
  {| json_dir := [];
     file_at := fun p =>
       if String.eqb p "metadata.json"
       then Some (Decoded (VList [ token (VInt 3) [attribute "A" (VInt 1)];
                                   VInt 5;
                                   token (VInt 1) [attribute "B" (VInt 2)] ]))
       else None |}.

Definition metadata_rows : list row :=
  [ [VStr "token_id"; VStr "image"; VStr "filename"; VStr "A"; VStr "B"];
    [VInt 1; VStr "art/7.png"; VStr "1.png"; VStr ""; VInt 2];
    [VInt 3; VStr "art/7.png"; VStr "3.png"; VInt 1; VStr ""] ].

(** The same run on a file that cannot be decoded. *)
Definition broken_world : world :=
  {| json_dir := [];
     file_at := fun p => if String.eqb p "metadata.json" then Some Undecodable else None |}.

(** A folder run over three files, the second of which cannot be decoded. *)
Definition folder_args : args :=
  {| metadata := None; emit_per_file := false; do_sort := false;
     id_from := None; image_prefix := None; aggregate := Some "nfts.csv";
     no_header := true; only_traits := true; fields := None;
     filename_col := None; filename_tmpl := "{token_id}.png" |}.

Definition broken_file : json_file :=
  {| file_name := "2.json"; file_stem := "2"; file_doc := Undecodable |}.

Definition folder_world : world :=
  {| json_dir :=
       [ {| file_name := "1.json"; file_stem := "1";
            file_doc := Decoded (token VNone [attribute "A" (VInt 1)]) |};
         broken_file;
         {| file_name := "3.json"; file_stem := "3";
            file_doc := Decoded (token VNone []) |} ];
     file_at := fun _ => None |}.

(** A run whose template names a variable the renderer does not offer. *)
Definition edition_args : args :=
  {| metadata := Some "metadata.json"; emit_per_file := false; do_sort := true;
     id_from := None; image_prefix := None; aggregate := None; no_header := false;
     only_traits := false; fields := None;
     filename_col := Some "filename"; filename_tmpl := "{edition}.png" |}.

Definition token_id_png : list piece :=
  [Field "token_id"; Text "."; Text "p"; Text "n"; Text "g"].

(** ** More of the script *)

(** [s.lower()], on code points below 256: the capital letters of the two
    halves move to their small forms. *)
Definition lower_char (c : ascii) : ascii :=
  let n := N_of_ascii c in
  if ((65 <=? n) && (n <=? 90)
      || (192 <=? n) && (n <=? 222) && negb (n =? 215))%N
  then ascii_of_N (n + 32) else c.

Fixpoint lower (s : string) : string :=
  match s with
  | EmptyString => EmptyString
  | String c r => String (lower_char c) (lower r)
  end.

(** [sorted] on the paths of one folder: paths of the same parent compare as
    their names do, character by character. *)
Fixpoint insert_name (x : string) (l : list string) : list string :=
  match l with
  | [] => [x]
  | y :: r => if String.ltb y x then y :: insert_name x r else x :: y :: r
  end.

Fixpoint sorted_names (l : list string) : list string :=
  match l with
  | [] => []
  | x :: r => insert_name x (sorted_names r)
  end.

Definition is_json_name {lib : PathLib} (n : string) : bool :=
  String.eqb (lower (path_suffix n)) ".json".

(** [read_all_json], on the names that [in_dir.iterdir()] yields (a POSIX
    folder: names compare by code point). *)
Definition read_all_json {lib : PathLib} (entries : list string) : list string :=
  sorted_names (filter is_json_name entries).

(** The cell of a trait column. *)
Definition trait_cell (it : item) (t : string) : pyval :=
  dict_get_default t (VStr "") (traits it).


(** The values no id can be read from: [null], booleans, lists and objects. *)
Definition never_an_id (v : pyval) : bool :=
  match v with
  | VNone | VBool _ | VList _ | VDict _ => true
  | _ => false
  end.

(** One per-item CSV: the header rows and the one row of its item. *)
Definition per_item_event {lib : PathLib} (a : args) (order : list string)
    (p : dest * item) (e : event) : Prop :=
  exists r, project_row a order (snd p) = Ok r
            /\ e = Wrote (fst p) (header_rows a order ++ [r]).


(** * Properties *)

(** ** Lists and strings *)

Lemma filter_filter_and {A : Type} (p q : A -> bool) (l : list A) :
  filter p (filter q l) = filter (fun x => q x && p x) l.
Proof.
  induction l as [| x l IH]; simpl; [reflexivity |].
  destruct (q x); simpl; [destruct (p x) |]; rewrite IH; reflexivity.
Qed.

Lemma mem_In (t : string) (l : list string) : mem t l = true <-> In t l.
Proof.
  unfold mem. rewrite existsb_exists. split.
  - intros [x [Hin Heq]]. apply String.eqb_eq in Heq. subst. exact Hin.
  - intros Hin. exists t. split; [exact Hin | apply String.eqb_refl].
Qed.

Lemma mem_app (t : string) (l1 l2 : list string) :
  mem t (l1 ++ l2) = mem t l1 || mem t l2.
Proof. unfold mem. apply existsb_app. Qed.

(** ** The trait scan *)

Lemma scan_trait_ok st t : scan_ok st -> scan_ok (scan_trait st t).
Proof.
  intros Hok. unfold scan_trait. destruct (mem t (trait_seen st)) eqn:E; [exact Hok |].
  intros u. simpl. rewrite mem_app, <- Hok. simpl.
  rewrite orb_false_r. apply orb_comm.
Qed.

Lemma scan_names_ok ns : forall st, scan_ok st -> scan_ok (fold_left scan_trait ns st).
Proof.
  induction ns as [| t ns IH]; intros st Hok; simpl; [exact Hok |].
  apply IH, scan_trait_ok, Hok.
Qed.

Lemma scan_names_order ns : forall st, scan_ok st ->
  all_traits_order (fold_left scan_trait ns st)
  = all_traits_order st
    ++ filter (fun y => negb (mem y (all_traits_order st))) (first_seen ns).
Proof.
  induction ns as [| t ns IH]; intros st Hok; simpl.
  - symmetry. apply app_nil_r.
  - rewrite (IH _ (scan_trait_ok st t Hok)).
    unfold scan_trait. rewrite (Hok t).
    destruct (mem t (all_traits_order st)) eqn:E; simpl.
    + f_equal. rewrite filter_filter_and. apply filter_ext.
      intros y. destruct (String.eqb y t) eqn:Ey; simpl; [| reflexivity].
      apply String.eqb_eq in Ey. subst y. rewrite E. reflexivity.
    + rewrite <- app_assoc. simpl. f_equal. f_equal.
      rewrite filter_filter_and. apply filter_ext.
      intros y. rewrite mem_app. simpl. rewrite orb_false_r, negb_orb.
      apply andb_comm.
Qed.

Lemma scan_items_names items : forall st,
  fold_left scan_item items st = fold_left scan_trait (batch_trait_names items) st.
Proof.
  induction items as [| it items IH]; intros st; simpl; [reflexivity |].
  unfold batch_trait_names in *. rewrite fold_left_app. apply IH.
Qed.

Lemma unify_traits_first_seen items :
  unify_traits items = first_seen (batch_trait_names items).
Proof.
  unfold unify_traits. rewrite scan_items_names, scan_names_order.
  - simpl. induction (first_seen (batch_trait_names items)); simpl; congruence.
  - intros t. reflexivity.
Qed.

Lemma first_seen_In l t : In t (first_seen l) <-> In t l.
Proof.
  induction l as [| x l IH]; simpl; [tauto |].
  rewrite filter_In, IH. destruct (String.eqb t x) eqn:E.
  - apply String.eqb_eq in E. subst. simpl. tauto.
  - apply String.eqb_neq in E. simpl. split.
    + intros [H | [H _]]; auto.
    + intros [H | H]; [left; exact H | right; split; [exact H | reflexivity]].
Qed.

Lemma NoDup_filter {A : Type} (p : A -> bool) (l : list A) : NoDup l -> NoDup (filter p l).
Proof.
  induction 1 as [| x l Hx Hl IH]; simpl; [constructor |].
  destruct (p x); [constructor |]; auto.
  rewrite filter_In. tauto.
Qed.

Lemma first_seen_NoDup l : NoDup (first_seen l).
Proof.
  induction l as [| x l IH]; simpl; constructor.
  - rewrite filter_In, String.eqb_refl. simpl. intros [_ H]. discriminate.
  - apply NoDup_filter, IH.
Qed.

(** C2: the Trait Schema Unifier returns the de-duplicated union of all trait
    names of the batch in first-seen order (items in batch order, names in
    each item's insertion order); every name of the batch is in it exactly
    once; the items [{A:1}] and [{B:2, A:3}] give the columns [A; B], and the
    result is not sorted: [{B:2}] followed by [{A:1}] gives [B; A]. *)
Theorem unify_traits_first_seen_union :
  (forall items, unify_traits items = first_seen (batch_trait_names items))
  /\ (forall items, NoDup (unify_traits items))
  /\ (forall items t,
        In t (unify_traits items)
        <-> exists it, In it items /\ In t (dict_keys (traits it)))
  /\ (forall seen t,
        unify_traits (seen ++ [item_with_traits [(t, VNone)]])
        = if mem t (unify_traits seen) then unify_traits seen
          else unify_traits seen ++ [t])
  /\ unify_traits [item_with_traits [("A", VInt 1)];
                   item_with_traits [("B", VInt 2); ("A", VInt 3)]] = ["A"; "B"]
  /\ unify_traits [item_with_traits [("B", VInt 2)];
                   item_with_traits [("A", VInt 1)]] = ["B"; "A"].
Proof.
  split; [exact unify_traits_first_seen |].
  split; [intros; rewrite unify_traits_first_seen; apply first_seen_NoDup |].
  split.
  { intros items t. rewrite unify_traits_first_seen, first_seen_In.
    unfold batch_trait_names. rewrite in_flat_map. reflexivity. }
  split; [| split; reflexivity].
  intros seen t. unfold unify_traits. rewrite fold_left_app. simpl.
  unfold scan_item at 1. simpl. unfold scan_trait.
  assert (Hok : scan_ok (fold_left scan_item seen
                           {| all_traits_order := []; trait_seen := [] |})).
  { rewrite scan_items_names. apply scan_names_ok. intros u. reflexivity. }
  rewrite (Hok t). destruct (mem t _); reflexivity.
Qed.

(** The columns of the two-item batch: [B] is among them, none twice. *)
Lemma unify_traits_first_seen_union_witness :
  In "B" (unify_traits [item_with_traits [("A", VInt 1)];
                        item_with_traits [("B", VInt 2); ("A", VInt 3)]])
  /\ NoDup (unify_traits [item_with_traits [("A", VInt 1)];
                          item_with_traits [("B", VInt 2); ("A", VInt 3)]]).
Proof.
  destruct unify_traits_first_seen_union as [_ [Hnodup [Hin _]]].
  split; [| apply Hnodup].
  apply Hin. exists (item_with_traits [("B", VInt 2); ("A", VInt 3)]).
  split; [right; left; reflexivity | left; reflexivity].
Defined.

(** ** Dictionaries *)

Lemma dict_lookup_set {V : Type} (k k' : string) (v : V) (d : list (string * V)) :
  dict_lookup k' (dict_set k v d)
  = if String.eqb k' k then Some v else dict_lookup k' d.
Proof.
  induction d as [| [k0 v0] d IH]; simpl.
  - reflexivity.
  - destruct (String.eqb k k0) eqn:E; simpl.
    + apply String.eqb_eq in E. subst k0.
      destruct (String.eqb k' k); reflexivity.
    + destruct (String.eqb k' k0) eqn:E0.
      * apply String.eqb_eq in E0. subst k0.
        rewrite String.eqb_sym, E. reflexivity.
      * exact IH.
Qed.

Lemma dict_lookup_app {V : Type} (k : string) (d1 d2 : list (string * V)) :
  dict_lookup k (d1 ++ d2)
  = match dict_lookup k d1 with Some v => Some v | None => dict_lookup k d2 end.
Proof.
  induction d1 as [| [k0 v0] d1 IH]; simpl; [reflexivity |].
  destruct (String.eqb k k0); [reflexivity | exact IH].
Qed.

Lemma dict_keys_set {V : Type} (k : string) (v : V) (d : list (string * V)) :
  dict_keys (dict_set k v d) = add_name (dict_keys d) k.
Proof.
  unfold add_name, dict_keys.
  induction d as [| [k0 v0] d IH]; simpl; [reflexivity |].
  destruct (String.eqb k k0) eqn:E; simpl; [reflexivity |].
  rewrite IH. destruct (mem k (map fst d)); reflexivity.
Qed.

Lemma add_names_first_seen ns : forall order,
  fold_left add_name ns order
  = order ++ filter (fun y => negb (mem y order)) (first_seen ns).
Proof.
  induction ns as [| t ns IH]; intros order; simpl.
  - symmetry. apply app_nil_r.
  - rewrite IH. unfold add_name.
    destruct (mem t order) eqn:E; simpl.
    + f_equal. rewrite filter_filter_and. apply filter_ext.
      intros y. destruct (String.eqb y t) eqn:Ey; simpl; [| reflexivity].
      apply String.eqb_eq in Ey. subst y. rewrite E. reflexivity.
    + rewrite <- app_assoc. simpl. f_equal. f_equal.
      rewrite filter_filter_and. apply filter_ext.
      intros y. rewrite mem_app. simpl. rewrite orb_false_r, negb_orb.
      apply andb_comm.
Qed.

Lemma filter_true {A : Type} (l : list A) : filter (fun _ => true) l = l.
Proof. induction l; simpl; congruence. Qed.

(** ** Trait extraction *)

Lemma add_trait_binding (m : dict) (a : pyval) :
  add_trait m a
  = match entry_binding a with Some (k, v) => dict_set k v m | None => m end.
Proof.
  destruct a; simpl; try reflexivity.
  destruct (truthy (trait_name_of d)); reflexivity.
Qed.

Lemma traits_lookup name atts : forall m,
  dict_lookup name (fold_left add_trait atts m)
  = match last_occurrence name atts with
    | Some v => Some v
    | None => dict_lookup name m
    end.
Proof.
  unfold last_occurrence.
  induction atts as [| a atts IH]; intros m; simpl; [reflexivity |].
  rewrite IH, rev_app_distr, dict_lookup_app, add_trait_binding.
  destruct (dict_lookup name (rev (bindings atts))); [reflexivity |].
  destruct (entry_binding a) as [[k v] |]; simpl; [| reflexivity].
  rewrite dict_lookup_set. destruct (String.eqb name k); reflexivity.
Qed.

Lemma traits_keys atts : forall m,
  dict_keys (fold_left add_trait atts m)
  = fold_left add_name (map fst (bindings atts)) (dict_keys m).
Proof.
  induction atts as [| a atts IH]; intros m; simpl; [reflexivity |].
  rewrite IH, map_app, fold_left_app, add_trait_binding. f_equal.
  destruct (entry_binding a) as [[k v] |]; simpl; [| reflexivity].
  apply dict_keys_set.
Qed.

Lemma extract_traits_attributes d atts :
  dict_lookup "attributes" d = Some (VList atts) ->
  extract_traits d = fold_left add_trait atts [].
Proof.
  intros H. unfold extract_traits, dict_get_default. rewrite H. reflexivity.
Qed.

(** C3 (amended): when several entries of the attribute list resolve to the
    same trait name, the trait mapping binds the name to the value of the
    LAST of them, at the place of the first; keys are unique per item. *)
Theorem extract_traits_last_wins (d : dict) (atts : list pyval) :
  dict_lookup "attributes" d = Some (VList atts) ->
  (forall name, dict_lookup name (extract_traits d) = last_occurrence name atts)
  /\ dict_keys (extract_traits d) = first_seen (map fst (bindings atts))
  /\ NoDup (dict_keys (extract_traits d)).
Proof.
  intros H. rewrite (extract_traits_attributes d atts H).
  assert (Hk : dict_keys (fold_left add_trait atts [])
               = first_seen (map fst (bindings atts))).
  { rewrite traits_keys, add_names_first_seen. simpl. apply filter_true. }
  split; [| split].
  - intros name. rewrite traits_lookup.
    destruct (last_occurrence name atts); reflexivity.
  - exact Hk.
  - rewrite Hk. apply first_seen_NoDup.
Qed.

(** Two entries for [Background]: the mapping holds the value of the second. *)
Lemma extract_traits_last_wins_witness :
  dict_lookup "Background" (extract_traits [("attributes", VList twice_background)])
  = Some (VStr "Red").
Proof.
  destruct (extract_traits_last_wins
              [("attributes", VList twice_background)] twice_background eq_refl)
    as [H _].
  rewrite H. reflexivity.
Defined.

(** C3, as stated, fails: of two entries for [Background] the first carries
    [Blue], and the mapping holds [Red]. *)
Lemma first_occurrence_loses :
  first_occurrence "Background" twice_background = Some (VStr "Blue")
  /\ extract_traits [("attributes", VList twice_background)]
     = [("Background", VStr "Red")].
Proof. split; reflexivity. Qed.

(** C4 (amended): an entry that is an object takes as trait name the string
    form of the first TRUE value among those supplied under [trait_type],
    [trait], [type] (a key that is present with an empty or otherwise false
    value is passed over); when no supplied value is true the entry is
    skipped and the mapping is unchanged; an entry that is not an object is
    skipped; the value is the empty string when the entry has no [value]. *)
Theorem add_trait_first_true_name :
  (forall m a,
     add_trait m (VDict a)
     = match first_true_name a with
       | Some t => dict_set (py_str t) (dict_get_default "value" (VStr "") a) m
       | None => m
       end)
  /\ (forall m x, is_object x = false -> add_trait m x = m)
  /\ (forall a, dict_lookup "value" a = None ->
                dict_get_default "value" (VStr "") a = VStr "").
Proof.
  split; [| split].
  - intros m a. unfold add_trait, first_true_name, supplied_names, trait_name_of,
      dict_get, py_or. simpl.
    destruct (dict_lookup "trait_type" a) as [v1 |];
      destruct (dict_lookup "trait" a) as [v2 |];
      destruct (dict_lookup "type" a) as [v3 |]; simpl;
      try destruct (truthy v1) eqn:E1;
      try destruct (truthy v2) eqn:E2;
      try destruct (truthy v3) eqn:E3;
      simpl; rewrite ?E1, ?E2, ?E3; simpl; rewrite ?E1, ?E2, ?E3; reflexivity.
  - intros m x Hx. destruct x; simpl in *; try reflexivity. discriminate.
  - intros a H. unfold dict_get_default. rewrite H. reflexivity.
Qed.

(** A number among the attributes is skipped; an entry without [value] gets
    the empty string. *)
Lemma add_trait_first_true_name_witness :
  add_trait [] (VInt 3) = []
  /\ dict_get_default "value" (VStr "") [("trait_type", VStr "Eyes")] = VStr "".
Proof.
  destruct add_trait_first_true_name as [_ [Hskip Hdflt]].
  split; [apply Hskip | apply Hdflt]; reflexivity.
Defined.

(** C4, as stated, fails: [trait_type] is the first key present, its value is
    the empty string, and the entry is filed under [Color]. *)
Lemma first_present_key_passed_over :
  first_present_name empty_trait_type = Some (VStr "")
  /\ add_trait [] (VDict empty_trait_type) = [("Color", VStr "red")].
Proof. split; reflexivity. Qed.

(** ** Reading integers *)

Lemma is_digit_digit_of c : is_digit c = true -> exists d, digit_of c = Some d.
Proof. unfold is_digit. destruct (digit_of c) as [d |]; [eauto | discriminate]. Qed.

Lemma digit_not_space c : is_digit c = true -> is_space c = false.
Proof.
  destruct c as [[] [] [] [] [] [] [] []]; intros H; try discriminate H; reflexivity.
Qed.

Lemma rstrip_unchanged (p : ascii -> bool) (s : string) :
  forallb (fun c => negb (p c)) (list_ascii_of_string s) = true ->
  Str.rstrip p s = s.
Proof.
  induction s as [| c r IH]; simpl; [reflexivity |].
  intros H. apply andb_prop in H. destruct H as [Hc Hr].
  rewrite (IH Hr). destruct (p c); [discriminate | reflexivity].
Qed.

Lemma digits_no_space s :
  forallb is_digit (list_ascii_of_string s) = true ->
  forallb (fun c => negb (is_space c)) (list_ascii_of_string s) = true.
Proof.
  intros H. rewrite forallb_forall in *. intros c Hc.
  rewrite (digit_not_space c (H c Hc)). reflexivity.
Qed.

Lemma int_digits_run s : forall acc prev,
  all_digits s = true ->
  int_digits acc prev s
  = Some (fold_left (fun a c => 10 * a + match digit_of c with Some d => d | None => 0 end)
                    (list_ascii_of_string s) acc).
Proof.
  unfold all_digits.
  induction s as [| c r IH]; intros acc prev H; [discriminate |].
  simpl in H. apply andb_prop in H. destruct H as [Hc Hr].
  destruct (is_digit_digit_of c Hc) as [d Hd]. simpl. rewrite Hd.
  destruct r as [| c' r'].
  - reflexivity.
  - apply IH. simpl. exact Hr.
Qed.

Lemma py_int_digit_run s : all_digits s = true -> py_int s = Some (digits_value s).
Proof.
  intros H. pose proof H as H0. unfold all_digits in H0.
  apply andb_prop in H0. destruct H0 as [_ Hall].
  unfold py_int. rewrite (rstrip_unchanged _ _ (digits_no_space s Hall)).
  destruct s as [| c r]; [discriminate |].
  simpl in Hall. apply andb_prop in Hall. destruct Hall as [Hc _].
  simpl. rewrite (digit_not_space c Hc).
  unfold digits_value. rewrite <- (int_digits_run (String c r) 0 AtStart H).
  destruct c as [[] [] [] [] [] [] [] []]; try discriminate Hc; reflexivity.
Qed.

(** ** The digit run of a file name *)

Lemma take_digits_split s :
  exists post,
    s = (take_digits s ++ post)%string
    /\ forallb is_digit (list_ascii_of_string (take_digits s)) = true
    /\ starts_without_digit post = true.
Proof.
  induction s as [| c r [post [Heq [Hd Hp]]]]; simpl.
  - exists EmptyString. repeat split.
  - destruct (is_digit c) eqn:E.
    + exists post. simpl. rewrite E, Hd, <- Heq. repeat split. exact Hp.
    + exists (String c r). simpl. rewrite E. repeat split.
Qed.

Lemma search_digits_run s :
  match search_digits s with
  | Some run => first_digit_run s run
  | None => no_digit s = true
  end.
Proof.
  unfold first_digit_run, no_digit.
  induction s as [| c r IH]; simpl; [reflexivity |].
  destruct (is_digit c) eqn:E.
  - destruct (take_digits_split r) as [post [Heq [Hd Hp]]].
    exists EmptyString, post. simpl. rewrite <- Heq.
    unfold all_digits. simpl. rewrite E, Hd. repeat split. exact Hp.
  - destruct (search_digits r) as [run |].
    + destruct IH as [pre [post [Heq [Hpre [Hrun Hpost]]]]].
      exists (String c pre), post. simpl. rewrite E, Hpre, <- Heq. repeat split; assumption.
    + simpl. exact IH.
Qed.

Lemma get_token_id_readable d : get_token_id_from_json d = hd_error (readable_ids d).
Proof.
  unfold get_token_id_from_json, readable_ids.
  induction id_keys as [| k ks IH]; simpl; [reflexivity |].
  destruct (dict_lookup k d) as [v |]; simpl; [| exact IH].
  destruct (py_int (py_str v)); simpl; [reflexivity | exact IH].
Qed.

(** ** [int(str(n))] gives [n] back *)

Lemma uint_value_acc d : forall acc : positive,
  uint_value (Zpos acc) d = Zpos (Pos.of_uint_acc d acc).
Proof.
  induction d; intros acc; cbn [uint_value Pos.of_uint_acc];
    [reflexivity | rewrite <- IHd; f_equal; lia ..].
Qed.

Lemma uint_value_of_uint d : uint_value 0 d = Z.of_N (Pos.of_uint d).
Proof.
  induction d; cbn [uint_value Pos.of_uint];
    [reflexivity | exact IHd | apply (uint_value_acc d) ..].
Qed.

Lemma string_of_uint_digits d :
  forallb is_digit (list_ascii_of_string (NilEmpty.string_of_uint d)) = true.
Proof. induction d; simpl; auto. Qed.

Lemma string_of_uint_value d : forall acc,
  fold_left (fun a c => 10 * a + match digit_of c with Some k => k | None => 0 end)
            (list_ascii_of_string (NilEmpty.string_of_uint d)) acc
  = uint_value acc d.
Proof. induction d; intros acc; simpl; auto. Qed.

Lemma positive_numeral p :
  exists s,
    NilZero.string_of_uint (Pos.to_uint p) = s
    /\ all_digits s = true
    /\ digits_value s = Zpos p.
Proof.
  exists (NilEmpty.string_of_uint (Pos.to_uint p)).
  pose proof (DecimalPos.Unsigned.to_uint_nonnil p) as Hnil.
  pose proof (DecimalPos.Unsigned.of_to p) as Hback.
  split; [| split].
  - destruct (Pos.to_uint p); [contradiction | reflexivity ..].
  - unfold all_digits. rewrite string_of_uint_digits.
    destruct (Pos.to_uint p); [contradiction | reflexivity ..].
  - unfold digits_value. rewrite string_of_uint_value, uint_value_of_uint, Hback.
    reflexivity.
Qed.

Lemma py_int_str_of_Z z : py_int (str_of_Z z) = Some z.
Proof.
  unfold str_of_Z. destruct z as [| p | p]; [reflexivity | |];
    cbn [Z.to_int NilZero.string_of_int];
    destruct (positive_numeral p) as [s [Hs [Hd Hv]]]; rewrite Hs.
  - rewrite (py_int_digit_run s Hd), Hv. reflexivity.
  - pose proof Hd as Hd'. unfold all_digits in Hd'.
    apply andb_prop in Hd'. destruct Hd' as [_ Hall].
    unfold py_int. rewrite rstrip_unchanged.
    + cbn [Str.lstrip]. change (is_space "-") with false. cbv iota.
      rewrite (int_digits_run s 0 AtStart Hd).
      unfold digits_value in Hv. rewrite Hv. reflexivity.
    + cbn [list_ascii_of_string forallb]. change (is_space "-") with false.
      apply (digits_no_space s Hall).
Qed.

(** An id given as a JSON integer under the first key is the id. *)
Lemma token_id_integer d n :
  dict_lookup "token_id" d = Some (VInt n) -> get_token_id_from_json d = Some n.
Proof.
  intros H. unfold get_token_id_from_json, id_keys. cbn [token_id_among].
  rewrite H. cbn [py_str py_repr]. rewrite py_int_str_of_Z. reflexivity.
Qed.
(** C5: in json mode the token id is the first value, in the priority order
    [token_id], [edition], [tokenId], [id], that is present and reads as an
    integer (a JSON integer always does), and there is none when no key
    qualifies; in filename mode it is
    the number written by the first run of decimal digits of the stem; in
    auto mode the json id is taken when there is one, the filename id
    otherwise.  A document with [token_id: "7"] and [edition: 3] resolves to 7
    in json and auto mode, whatever the file is called. *)
Theorem token_id_resolution :
  (forall d, get_token_id_from_json d = hd_error (readable_ids d))
  /\ (forall n, py_int (py_str (VInt n)) = Some n)
  /\ (forall stem,
        match search_digits stem with
        | Some run =>
            first_digit_run stem run
            /\ guess_token_id_from_filename stem = Some (digits_value run)
        | None =>
            no_digit stem = true /\ guess_token_id_from_filename stem = None
        end)
  /\ (forall stem d prefix,
        option_map token_id (parse_json_file stem (VDict d) (Some FromJson) prefix)
        = Some (get_token_id_from_json d)
        /\ option_map token_id (parse_json_file stem (VDict d) (Some FromFilename) prefix)
           = Some (guess_token_id_from_filename stem)
        /\ option_map token_id (parse_json_file stem (VDict d) None prefix)
           = Some (match get_token_id_from_json d with
                   | Some n => Some n
                   | None => guess_token_id_from_filename stem
                   end))
  /\ (forall prefix key, token_id (normalize_one prefix seven_and_three key) = Some 7)
  /\ (forall stem prefix,
        option_map token_id
          (parse_json_file stem (VDict seven_and_three) (Some FromJson) prefix)
        = Some (Some 7)
        /\ option_map token_id (parse_json_file stem (VDict seven_and_three) None prefix)
           = Some (Some 7)).
Proof.
  split; [exact get_token_id_readable |].
  split; [intros n; apply py_int_str_of_Z |].
  split.
  { intros stem. pose proof (search_digits_run stem) as H.
    unfold guess_token_id_from_filename.
    destruct (search_digits stem) as [run |].
    - split; [exact H |]. apply py_int_digit_run.
      destruct H as [pre [post [_ [_ [Hrun _]]]]]. exact Hrun.
    - split; [exact H | reflexivity]. }
  split; [intros; repeat split |].
  split; [reflexivity | intros; split; reflexivity].
Qed.

(** ** Prefixes and removal of a pattern *)

Lemma startswith_app p s : Str.startswith p (p ++ s)%string = true.
Proof.
  unfold Str.startswith. induction p as [| c p IH]; simpl.
  - destruct s; reflexivity.
  - destruct (ascii_dec c c) as [_ | N]; [exact IH | contradiction].
Qed.

Lemma startswith_split p : forall s,
  Str.startswith p s = true -> s = (p ++ Str.drop (String.length p) s)%string.
Proof.
  unfold Str.startswith. induction p as [| c p IH]; intros s H; simpl.
  - reflexivity.
  - destruct s as [| c' s]; simpl in H; [discriminate |].
    destruct (ascii_dec c c') as [E | N]; [| discriminate].
    subst c'. f_equal. apply IH, H.
Qed.

Lemma strip_prefix_app p s : strip_prefix p (p ++ s)%string = s.
Proof.
  unfold strip_prefix. rewrite startswith_app.
  induction p as [| c p IH]; simpl; [reflexivity | exact IH].
Qed.

Lemma remove_all_from_skip pat q : forall s,
  Str.remove_all_from pat (String.length q) (q ++ s)%string
  = Str.remove_all_from pat O s.
Proof.
  induction q as [| c q IH]; intros s; simpl; [reflexivity | apply IH].
Qed.

(** An occurrence at the front is dropped and the scan goes on behind it. *)
Lemma remove_all_front pat s :
  Str.is_empty pat = false ->
  Str.remove_all pat (pat ++ s)%string = Str.remove_all pat s.
Proof.
  intros Hne. unfold Str.remove_all.
  destruct pat as [| c q]; [discriminate |].
  change (String c q ++ s)%string with (String c (q ++ s)%string).
  cbn [Str.remove_all_from Str.is_empty].
  change (String c (q ++ s)%string) with (String c q ++ s)%string.
  rewrite startswith_app.
  replace (String.length (String c q) - 1)%nat with (String.length q)
    by (simpl; lia).
  apply remove_all_from_skip.
Qed.

(** A character that does not start an occurrence is kept. *)
Lemma remove_all_keep pat c r :
  Str.startswith pat (String c r) = false ->
  Str.remove_all pat (String c r) = String c (Str.remove_all pat r).
Proof.
  intros H. unfold Str.remove_all. cbn [Str.remove_all_from].
  rewrite H. destruct (Str.is_empty pat); reflexivity.
Qed.

Lemma remove_all_absent pat s : occurs pat s = false -> Str.remove_all pat s = s.
Proof.
  induction s as [| c r IH]; intros H; [reflexivity |].
  cbn [occurs] in H. apply orb_false_elim in H. destruct H as [Hp Hr].
  rewrite (remove_all_keep pat c r Hp), (IH Hr). reflexivity.
Qed.

(** Where [ipfs://] stands at most at the front, removing every occurrence
    and stripping the prefix are the same. *)
Lemma remove_all_is_strip_prefix pat s :
  Str.is_empty pat = false ->
  occurs pat (strip_prefix pat s) = false ->
  Str.remove_all pat s = strip_prefix pat s.
Proof.
  intros Hne H. unfold strip_prefix in *.
  destruct (Str.startswith pat s) eqn:E.
  - rewrite (startswith_split pat s E) at 1.
    rewrite (remove_all_front pat _ Hne). apply remove_all_absent, H.
  - apply remove_all_absent, H.
Qed.

(** ** Trimming *)

(** [lstrip] cuts a run of matching characters off the front, and all of it. *)
Lemma lstrip_split p s :
  exists cut,
    s = (cut ++ Str.lstrip p s)%string
    /\ all_chars p cut = true
    /\ starts_with_char p (Str.lstrip p s) = false.
Proof.
  unfold all_chars. induction s as [| c r [cut [Heq [Hcut Hs]]]].
  - exists EmptyString. repeat split.
  - simpl. destruct (p c) eqn:E.
    + exists (String c cut). simpl. rewrite E, Hcut, <- Heq. repeat split. exact Hs.
    + exists EmptyString. simpl. rewrite E. repeat split.
Qed.

(** [rstrip] cuts a run of matching characters off the end, and all of it. *)
Lemma rstrip_split p s :
  exists cut,
    s = (Str.rstrip p s ++ cut)%string
    /\ all_chars p cut = true
    /\ ends_with_char p (Str.rstrip p s) = false.
Proof.
  unfold all_chars. induction s as [| c r [cut [Heq [Hcut Hs]]]].
  - exists EmptyString. repeat split.
  - cbn [Str.rstrip]. destruct (Str.rstrip p r) as [| c' r'] eqn:Er.
    + cbn [Str.is_empty]. rewrite andb_true_r.
      cbn [String.append] in Heq. subst cut. destruct (p c) eqn:E.
      * exists (String c r). simpl. rewrite E, Hcut. repeat split.
      * exists r. simpl. rewrite E. repeat split. exact Hcut.
    + cbn [Str.is_empty]. rewrite andb_false_r.
      exists cut. split; [rewrite Heq at 1; reflexivity |].
      split; [exact Hcut | exact Hs].
Qed.

(** What is cut off is all there was to cut. *)
Lemma lstrip_unique p lead path :
  all_chars p lead = true ->
  starts_with_char p path = false ->
  Str.lstrip p (lead ++ path) = path.
Proof.
  unfold all_chars. induction lead as [| c lead IH]; intros Hl Hp.
  - destruct path as [| c r]; [reflexivity |]. simpl in *. rewrite Hp. reflexivity.
  - simpl in Hl. apply andb_prop in Hl. destruct Hl as [Hc Hl].
    simpl. rewrite Hc. exact (IH Hl Hp).
Qed.

Lemma rstrip_all p sl : all_chars p sl = true -> Str.rstrip p sl = EmptyString.
Proof.
  unfold all_chars. induction sl as [| c sl IH]; intros H; [reflexivity |].
  simpl in H. apply andb_prop in H. destruct H as [Hc Hs].
  cbn [Str.rstrip]. rewrite (IH Hs), Hc. reflexivity.
Qed.

Lemma rstrip_unique p gw sl :
  all_chars p sl = true ->
  ends_with_char p gw = false ->
  Str.rstrip p (gw ++ sl) = gw.
Proof.
  intros Hs. induction gw as [| c g IH]; intros Hg.
  - apply rstrip_all, Hs.
  - cbn [String.append Str.rstrip]. destruct g as [| c' g'].
    + cbn [String.append]. rewrite (rstrip_all p sl Hs). simpl in Hg. rewrite Hg. reflexivity.
    + rewrite (IH Hg). cbn [Str.is_empty]. rewrite andb_false_r. reflexivity.
Qed.

(** ** Every occurrence *)

Lemma append_length (s t : string) :
  String.length (s ++ t) = (String.length s + String.length t)%nat.
Proof. induction s as [| c s IH]; simpl; [reflexivity | rewrite IH; reflexivity]. Qed.

(** Up to the first occurrence nothing is taken out, and the search goes on
    behind it. *)
Lemma remove_all_cut pat u v :
  Str.is_empty pat = false ->
  begins_within pat u (pat ++ v) = false ->
  Str.remove_all pat (u ++ pat ++ v) = (u ++ Str.remove_all pat v)%string.
Proof.
  intros Hne. induction u as [| c u IH]; intros H.
  - cbn [String.append]. apply remove_all_front, Hne.
  - cbn [begins_within] in H. apply orb_false_elim in H. destruct H as [Hc Hu].
    cbn [String.append]. rewrite (remove_all_keep pat c _ Hc), (IH Hu). reflexivity.
Qed.

(** A text in which [pat] occurs splits at its first occurrence. *)
Lemma leftmost_occurrence pat s :
  Str.is_empty pat = false ->
  occurs pat s = true ->
  exists u v, s = (u ++ pat ++ v)%string /\ begins_within pat u (pat ++ v) = false.
Proof.
  intros Hne. induction s as [| c r IH]; intros H.
  - destruct pat; discriminate.
  - cbn [occurs] in H. destruct (Str.startswith pat (String c r)) eqn:E.
    + exists EmptyString, (Str.drop (String.length pat) (String c r)).
      split; [apply (startswith_split pat _ E) | reflexivity].
    + cbn [orb] in H. destruct (IH H) as [u [v [Hs Hu]]].
      exists (String c u), v. split; [simpl; rewrite Hs; reflexivity |].
      cbn [begins_within]. rewrite <- Hs, E, Hu. reflexivity.
Qed.

Lemma cut_out_unique pat s r :
  Str.is_empty pat = false -> cut_out pat s r -> r = Str.remove_all pat s.
Proof.
  intros Hne H. induction H as [s H | u v r Hu _ IH].
  - symmetry. apply remove_all_absent, H.
  - rewrite (remove_all_cut pat u v Hne Hu), IH. reflexivity.
Qed.

(** [replace] takes out every occurrence. *)
Lemma cut_out_remove_all pat s :
  Str.is_empty pat = false -> cut_out pat s (Str.remove_all pat s).
Proof.
  intros Hne.
  assert (Hn : forall n s, (String.length s <= n)%nat -> cut_out pat s (Str.remove_all pat s)).
  { clear s. induction n as [| n IH]; intros s Hlen.
    - destruct s; [| simpl in Hlen; lia].
      apply cut_none. destruct pat; [discriminate | reflexivity].
    - destruct (occurs pat s) eqn:E.
      + destruct (leftmost_occurrence pat s Hne E) as [u [v [Hs Hu]]]. subst s.
        rewrite (remove_all_cut pat u v Hne Hu).
        apply cut_next; [exact Hu |]. apply IH.
        rewrite !append_length in Hlen.
        destruct pat; [discriminate | simpl in Hlen; lia].
      + rewrite (remove_all_absent pat s E). apply cut_none, E. }
  exact (Hn (String.length s) s (le_n _)).
Qed.

(** ** The rule *)

Lemma http_scheme_starts_http s :
  has_http_scheme s = true ->
  Str.startswith "ipfs://" s || negb (Str.startswith "http" s) = false.
Proof.
  unfold has_http_scheme. intros H. apply orb_prop in H.
  assert (Hh : Str.startswith "http" s = true).
  { destruct H as [H | H].
    - rewrite (startswith_split "http://" s H). reflexivity.
    - rewrite (startswith_split "https://" s H). reflexivity. }
  assert (Hi : Str.startswith "ipfs://" s = false).
  { rewrite (startswith_split "http" s Hh). reflexivity. }
  rewrite Hh, Hi. reflexivity.
Qed.

Lemma rewritten_behind_gateway p s :
  behind_gateway p s
    (Str.rstrip Str.is_slash p ++ "/"
     ++ Str.lstrip Str.is_slash (strip_prefix "ipfs/" (Str.remove_all "ipfs://" s))).
Proof.
  destruct (rstrip_split Str.is_slash p) as [slashes [Hp [Hsl Hgw]]].
  destruct (lstrip_split Str.is_slash (strip_prefix "ipfs/" (Str.remove_all "ipfs://" s)))
    as [lead [Hb [Hlead Hpath]]].
  exists (Str.rstrip Str.is_slash p), slashes, (Str.remove_all "ipfs://" s), lead,
    (Str.lstrip Str.is_slash (strip_prefix "ipfs/" (Str.remove_all "ipfs://" s))).
  repeat split; try assumption.
  apply cut_out_remove_all. reflexivity.
Qed.

Lemma behind_gateway_unique p s r :
  behind_gateway p s r ->
  r = (Str.rstrip Str.is_slash p ++ "/"
       ++ Str.lstrip Str.is_slash (strip_prefix "ipfs/" (Str.remove_all "ipfs://" s)))%string.
Proof.
  intros [gw [slashes [body [lead [path [Hp [Hsl [Hgw [Hcut [Hb [Hlead [Hpath Hr]]]]]]]]]]]].
  apply (cut_out_unique "ipfs://" s body eq_refl) in Hcut. subst body.
  rewrite Hb, Hp, (rstrip_unique _ gw slashes Hsl Hgw), (lstrip_unique _ lead path Hlead Hpath).
  exact Hr.
Qed.

(** C6 (amended): for a string image value, when a gateway prefix is given
    and not empty and the value starts with [ipfs://] or does not start with
    [http], the result is the prefix without its trailing slashes, a slash,
    and the value with every occurrence of [ipfs://] taken out, then a
    leading [ipfs/] dropped, then all its leading slashes dropped, and
    nothing else; a value that starts with [http://] or [https://], and
    every value when no prefix is given, is unchanged; a value that is not a
    string gives the empty string.  The rule of the specification gives the
    same result whenever [ipfs://] occurs at most at the front of the value
    and a value that starts with [http] starts with [http://] or
    [https://].  With the gateway [https://ipfs.io/ipfs] both
    [ipfs://QmABC/1.png] and [ipfs://ipfs/QmABC/1.png] give
    [https://ipfs.io/ipfs/QmABC/1.png]. *)
Theorem normalize_image_rule :
  (forall s p prefix,
     given prefix = Some p ->
     Str.startswith "ipfs://" s = true \/ Str.startswith "http" s = false ->
     behind_gateway p s (normalize_image (VStr s) prefix)
     /\ forall r, behind_gateway p s r -> r = normalize_image (VStr s) prefix)
  /\ (forall s prefix,
        given prefix = None \/ has_http_scheme s = true ->
        normalize_image (VStr s) prefix = s)
  /\ (forall v prefix, is_string v = false -> normalize_image v prefix = EmptyString)
  /\ (forall s prefix,
        occurs "ipfs://" (strip_prefix "ipfs://" s) = false ->
        Str.startswith "http" s = has_http_scheme s ->
        normalize_image (VStr s) prefix = normalize_image_as_stated (VStr s) prefix)
  /\ normalize_image (VStr "ipfs://QmABC/1.png") gateway = "https://ipfs.io/ipfs/QmABC/1.png"
  /\ normalize_image (VStr "ipfs://ipfs/QmABC/1.png") gateway
     = "https://ipfs.io/ipfs/QmABC/1.png".
Proof.
  split; [| split; [| split; [| split; [| split; reflexivity]]]].
  - intros s p prefix Hp Hc.
    assert (Hrw : normalize_image (VStr s) prefix
                  = (Str.rstrip Str.is_slash p ++ "/"
                     ++ Str.lstrip Str.is_slash
                          (strip_prefix "ipfs/" (Str.remove_all "ipfs://" s)))%string).
    { unfold normalize_image, strip_prefix. rewrite Hp.
      destruct Hc as [Hc | Hc]; rewrite Hc; [| rewrite orb_true_r]; reflexivity. }
    rewrite Hrw. split; [apply rewritten_behind_gateway |].
    intros r. apply behind_gateway_unique.
  - intros s prefix [Hp | Hc]; unfold normalize_image.
    + rewrite Hp. reflexivity.
    + rewrite (http_scheme_starts_http s Hc). destruct (given prefix); reflexivity.
  - intros v prefix Hv. destruct v; simpl in *; try reflexivity. discriminate.
  - intros s prefix Hocc Hhttp. unfold normalize_image, normalize_image_as_stated.
    rewrite <- Hhttp, <- (remove_all_is_strip_prefix "ipfs://" s eq_refl Hocc).
    reflexivity.
Qed.

(** A value with two occurrences of [ipfs://] loses both, a URL passes
    through, a number gives the empty string, and on a relative path script
    and specification agree. *)
Lemma normalize_image_rule_witness :
  behind_gateway "https://ipfs.io/ipfs/" "ipfs://QmABC/ipfs://1.png"
    (normalize_image (VStr "ipfs://QmABC/ipfs://1.png") (Some "https://ipfs.io/ipfs/"))
  /\ normalize_image (VStr "ipfs://QmABC/ipfs://1.png") (Some "https://ipfs.io/ipfs/")
     = "https://ipfs.io/ipfs/QmABC/1.png"
  /\ normalize_image (VStr "https://host/1.png") gateway = "https://host/1.png"
  /\ normalize_image (VInt 7) gateway = EmptyString
  /\ normalize_image (VStr "art/1.png") gateway
     = normalize_image_as_stated (VStr "art/1.png") gateway.
Proof.
  destruct normalize_image_rule as [Hrw [Hid [Hno [Hsame _]]]].
  split; [| split; [| split; [| split]]].
  - apply (Hrw "ipfs://QmABC/ipfs://1.png" "https://ipfs.io/ipfs/"
             (Some "https://ipfs.io/ipfs/") eq_refl).
    left. reflexivity.
  - reflexivity.
  - apply Hid. right. reflexivity.
  - apply Hno. reflexivity.
  - apply Hsame; reflexivity.
Defined.

(** C6, as stated, fails: a relative path with [ipfs://] inside has no such
    prefix to strip, yet the inner occurrence is taken out. *)
Lemma inner_ipfs_scheme_removed :
  normalize_image (VStr "art/ipfs://QmABC/1.png") gateway
  = "https://ipfs.io/ipfs/art/QmABC/1.png"
  /\ normalize_image_as_stated (VStr "art/ipfs://QmABC/1.png") gateway
     = "https://ipfs.io/ipfs/art/ipfs://QmABC/1.png".
Proof. repeat split. Qed.

(** A relative path that begins with the letters [http] is taken for a URL
    and stays without the gateway, where the docstring of [normalize_image]
    and the help of [--image-prefix] give the gateway to relative paths. *)
Lemma http_letters_taken_for_url :
  normalize_image (VStr "httpdocs/1.png") gateway = "httpdocs/1.png".
Proof. reflexivity. Qed.

(** ** Sorting by token id *)

#[local] Arguments key_lt : simpl never.
#[local] Arguments sort_key : simpl never.





Lemma insert_by_key_perm x l : Permutation (x :: l) (insert_by_key x l).
Proof.
  induction l as [| y r IH]; simpl; [apply Permutation_refl |].
  destruct (key_lt (sort_key y) (sort_key x)); [| apply Permutation_refl].
  eapply perm_trans; [apply perm_swap | apply perm_skip, IH].
Qed.

Lemma sort_by_token_id_perm l : Permutation l (sort_by_token_id l).
Proof.
  induction l as [| x r IH]; simpl; [constructor |].
  eapply perm_trans; [apply perm_skip, IH | apply insert_by_key_perm].
Qed.








(** *** The sorted, stable arrangement is unique *)










(** ** Templates *)

Lemma outcome_map_id {A : Type} (o : outcome A) : outcome_map (fun x => x) o = o.
Proof. destruct o; reflexivity. Qed.

Lemma append_assoc (a b c : string) : ((a ++ b) ++ c = a ++ (b ++ c))%string.
Proof. induction a as [| x a IH]; simpl; [reflexivity | rewrite IH; reflexivity]. Qed.

Lemma append_nil_r (a : string) : (a ++ "")%string = a.
Proof. induction a as [| x a IH]; simpl; [reflexivity | rewrite IH; reflexivity]. Qed.

Lemma name_char_plain c :
  name_char c = true ->
  Ascii.eqb c "{" = false /\ Ascii.eqb c "}" = false /\ is_field_markup c = false.
Proof.
  unfold name_char, is_brace. rewrite negb_orb. intros H.
  apply andb_prop in H. destruct H as [Hb Hm].
  apply andb_prop in Hb. destruct Hb as [Ho Hc].
  apply negb_true_iff in Ho, Hc, Hm. auto.
Qed.

Lemma markup_in_name n : forall acc rest,
  forallb name_char (list_ascii_of_string n) = true ->
  markup_from (InName acc) (n ++ String "}" rest)%string
  = Repl (ReplField (acc ++ n) no_conv EmptyString false) :: markup_from InText rest.
Proof.
  induction n as [| c n IH]; intros acc rest Hn.
  - simpl. rewrite append_nil_r. reflexivity.
  - simpl in Hn. apply andb_prop in Hn. destruct Hn as [Hc Hn].
    destruct (name_char_plain c Hc) as [Ho [Hcl Hm]].
    unfold is_field_markup in Hm.
    repeat (apply orb_false_elim in Hm; let E := fresh "E" in destruct Hm as [Hm E]).
    cbn [String.append markup_from]. rewrite Ho, Hcl, Hm, E, E1.
    rewrite (IH _ _ Hn). unfold snoc. rewrite append_assoc. reflexivity.
Qed.

Lemma markup_field n rest :
  forallb name_char (list_ascii_of_string n) = true ->
  markup_from InText (piece_text (Field n) ++ rest)%string
  = piece_token (Field n) :: markup_from InText rest.
Proof.
  intros Hn. cbn [piece_text piece_token]. rewrite !append_assoc.
  change ("{" ++ (n ++ "}" ++ rest))%string with (String "{" (n ++ String "}" rest)%string).
  cbn [markup_from]. cbn [Ascii.eqb Bool.eqb].
  destruct n as [| c n].
  - reflexivity.
  - pose proof Hn as Hn'. simpl in Hn'. apply andb_prop in Hn'. destruct Hn' as [Hc Hn'].
    destruct (name_char_plain c Hc) as [Ho [Hcl Hm]].
    unfold is_field_markup in Hm.
    repeat (apply orb_false_elim in Hm; let E := fresh "E" in destruct Hm as [Hm E]).
    cbn [String.append markup_from]. rewrite Ho, Hcl, Hm, E, E1.
    rewrite (markup_in_name n _ rest Hn'). reflexivity.
Qed.

(** The reader takes a well-formed template apart into its pieces. *)
Lemma markup_template ps :
  forallb piece_ok ps = true ->
  markup (template_of ps) = map piece_token ps.
Proof.
  unfold markup. induction ps as [| p ps IH]; intros Hok; [reflexivity |].
  cbn [forallb] in Hok. apply andb_prop in Hok. destruct Hok as [Hp Hps].
  specialize (IH Hps). cbn [template_of map].
  destruct p as [c | | | n].
  - cbn [piece_ok] in Hp. unfold is_brace in Hp. rewrite negb_orb in Hp.
    apply andb_prop in Hp. destruct Hp as [Ho Hcl]. apply negb_true_iff in Ho, Hcl.
    cbn [piece_text String.append markup_from piece_token]. rewrite Ho, Hcl, IH. reflexivity.
  - cbn. rewrite IH. reflexivity.
  - cbn. rewrite IH. reflexivity.
  - rewrite (markup_field n _ Hp), IH. reflexivity.
Qed.

Lemma split_name_plain n :
  forallb name_char (list_ascii_of_string n) = true -> split_name n = (n, EmptyString).
Proof.
  induction n as [| c n IH]; intros Hn; [reflexivity |].
  simpl in Hn. apply andb_prop in Hn. destruct Hn as [Hc Hn].
  destruct (name_char_plain c Hc) as [_ [_ Hm]].
  unfold is_field_markup in Hm.
  repeat (apply orb_false_elim in Hm; let E := fresh "E" in destruct Hm as [Hm E]).
  cbn [split_name]. rewrite E0, E, (IH Hn). reflexivity.
Qed.

Lemma render_tokens_fill {lib : PathLib} expand kwargs ps :
  forallb piece_ok ps = true ->
  render_tokens expand kwargs (map piece_token ps) = fill kwargs ps.
Proof.
  induction ps as [| p ps IH]; intros Hok; [reflexivity |].
  cbn [forallb] in Hok. apply andb_prop in Hok. destruct Hok as [Hp Hps].
  specialize (IH Hps). cbn [map].
  destruct p as [c | | | n]; cbn [piece_token render_tokens fill];
    try (rewrite IH; reflexivity).
  cbn [piece_ok] in Hp.
  unfold render_field, arg_name, field_outcome. cbn [f_name f_conv f_spec f_expand].
  rewrite (split_name_plain n Hp). cbn [fst snd].
  destruct (field_value kwargs n) as [v | e]; [| reflexivity].
  cbn. rewrite IH. reflexivity.
Qed.

Lemma py_format_fill {lib : PathLib} kwargs ps :
  forallb piece_ok ps = true ->
  py_format (template_of ps) kwargs = fill kwargs ps.
Proof.
  intros Hok. unfold py_format. cbn [build_string].
  rewrite (markup_template ps Hok). apply render_tokens_fill, Hok.
Qed.

(** On a well-formed template the names referred to are the names of its
    fields. *)
Lemma referenced_names_template ps :
  forallb piece_ok ps = true ->
  referenced_names (template_of ps) = field_names ps.
Proof.
  intros Hok. unfold referenced_names. cbn [names_in].
  rewrite (markup_template ps Hok). unfold field_names.
  induction ps as [| p ps IH]; [reflexivity |].
  cbn [forallb] in Hok. apply andb_prop in Hok. destruct Hok as [Hp Hps].
  cbn [map flat_map]. rewrite (IH Hps).
  destruct p as [c | | | n]; try reflexivity.
  cbn [piece_token piece_ok] in *. unfold arg_name. cbn [f_name f_expand].
  rewrite (split_name_plain n Hp). reflexivity.
Qed.

(** ** Names that are looked up *)

Section LookupFacts.

Context {lib : PathLib}.
Variable kwargs : dict.

(** A rendering that returns has found every argument name and expanded
    every format specification that needed it. *)
Lemma render_tokens_found expand toks s :
  render_tokens expand kwargs toks = Ok s ->
  Forall (fun t => match t with
                   | Lit _ => True
                   | Repl f => found kwargs (arg_name f)
                               /\ (f_expand f = true ->
                                   exists s', expand (f_spec f) = Ok s')
                   | Malformed => False
                   end) toks.
Proof.
  revert s. induction toks as [| t toks IH]; intros s H; [constructor |].
  destruct t as [c | f |]; cbn [render_tokens] in H.
  - destruct (render_tokens expand kwargs toks) as [s' | e]; [| discriminate H].
    constructor; [exact I | exact (IH s' eq_refl)].
  - destruct (render_field expand kwargs f) as [s1 | e] eqn:Ef; [| discriminate H].
    destruct (render_tokens expand kwargs toks) as [s' | e]; [| discriminate H].
    constructor; [| exact (IH s' eq_refl)].
    unfold render_field in Ef.
    destruct (field_value kwargs (arg_name f)) as [v | e] eqn:Ev; [| discriminate Ef].
    split; [exists v; exact Ev |].
    intros Hx. rewrite Hx in Ef.
    destruct (_ || _); [| discriminate Ef].
    destruct (expand (f_spec f)) as [s2 | e]; [eauto | discriminate Ef].
  - discriminate H.
Qed.

Lemma build_string_found depth : forall tmpl s,
  build_string depth kwargs tmpl = Ok s -> Forall (found kwargs) (names_in depth tmpl).
Proof.
  induction depth as [| d IH]; intros tmpl s H; [constructor |].
  cbn [build_string names_in] in *.
  apply render_tokens_found in H.
  induction H as [| t toks Ht _ IHt]; [constructor |].
  cbn [flat_map]. apply Forall_app. split; [| exact IHt].
  destruct t as [c | f |]; [constructor | | contradiction].
  destruct Ht as [Hn Hx]. constructor; [exact Hn |].
  destruct (f_expand f); [| constructor].
  destruct (Hx eq_refl) as [s' Hs']. exact (IH _ _ Hs').
Qed.

End LookupFacts.

Section RenderFacts.

Context {lib : PathLib}.
Variables (tid : option Z) (stem : string) (image_raw : pyval).

Lemma supported_field_value n :
  mem n supported_names = true ->
  field_value (filename_kwargs tid stem image_raw) n
  = Ok (dict_get n (filename_kwargs tid stem image_raw)).
Proof.
  intros H. apply mem_In in H. simpl in H.
  repeat (destruct H as [H | H]; [subst n; reflexivity |]). contradiction.
Qed.

Lemma unsupported_field_value n :
  mem n supported_names = false ->
  exists e, field_value (filename_kwargs tid stem image_raw) n = Raise e.
Proof.
  intros H. unfold field_value.
  destruct (Str.is_empty n); [eauto |].
  destruct (all_digits n); [destruct (_ <=? _); eauto |].
  unfold mem, supported_names in H. cbn [existsb] in H.
  repeat (apply orb_false_elim in H; let E := fresh "E" in destruct H as [E H]).
  unfold filename_kwargs. cbn [dict_lookup]. rewrite E, E0, E1, E2, E3. eauto.
Qed.

Lemma fill_supported ps :
  only_supported (field_names ps) = true ->
  fill (filename_kwargs tid stem image_raw) ps
  = Ok (substitute (filename_kwargs tid stem image_raw) ps).
Proof.
  unfold only_supported.
  induction ps as [| p ps IH]; intros H; [reflexivity |].
  destruct p as [c | | | n]; cbn [field_names flat_map app forallb fill substitute] in *;
    try (rewrite (IH H); reflexivity).
  apply andb_prop in H. destruct H as [Hn Hps].
  unfold field_outcome. rewrite (supported_field_value n Hn), (IH Hps). reflexivity.
Qed.

Lemma fill_unsupported ps :
  only_supported (field_names ps) = false ->
  exists e, fill (filename_kwargs tid stem image_raw) ps = Raise e.
Proof.
  unfold only_supported.
  induction ps as [| p ps IH]; intros H; [discriminate |].
  destruct p as [c | | | n]; cbn [field_names flat_map app forallb fill] in *;
    try (destruct (IH H) as [e He]; rewrite He; exists e; reflexivity).
  unfold field_outcome.
  destruct (mem n supported_names) eqn:Hn.
  - rewrite (supported_field_value n Hn).
    destruct (IH H) as [e He]. rewrite He. exists e. reflexivity.
  - destruct (unsupported_field_value n Hn) as [e He]. rewrite He. eauto.
Qed.

Lemma found_supported n :
  found (filename_kwargs tid stem image_raw) n -> mem n supported_names = true.
Proof.
  intros [v Hv]. destruct (mem n supported_names) eqn:Hn; [reflexivity |].
  destruct (unsupported_field_value n Hn) as [e He]. congruence.
Qed.

(** Whatever else the template holds, a name the renderer does not offer
    makes it raise: every name is looked up before the field it stands in
    can give anything. *)
Lemma render_unsupported tmpl :
  only_supported (referenced_names tmpl) = false ->
  exists e, render_filename_col tmpl tid stem image_raw = Raise e.
Proof.
  intros H. unfold render_filename_col, py_format.
  destruct (build_string 2 (filename_kwargs tid stem image_raw) tmpl) as [s | e] eqn:E;
    [| eauto].
  apply build_string_found in E. fold (referenced_names tmpl) in E.
  assert (Hall : only_supported (referenced_names tmpl) = true).
  { unfold only_supported. apply forallb_forall. intros n Hn.
    apply found_supported. rewrite Forall_forall in E. exact (E n Hn). }
  congruence.
Qed.

(** So does a template the reader gives up on, whatever it refers to. *)
Lemma render_malformed tmpl :
  In Malformed (markup tmpl) ->
  exists e, render_filename_col tmpl tid stem image_raw = Raise e.
Proof.
  intros H. unfold render_filename_col, py_format.
  destruct (build_string 2 (filename_kwargs tid stem image_raw) tmpl) as [s | e] eqn:E;
    [| eauto].
  cbn [build_string] in E. apply render_tokens_found in E.
  rewrite Forall_forall in E. destruct (E Malformed H).
Qed.

End RenderFacts.

Section AbortFacts.

Context {lib : PathLib}.
Variable a : args.

Lemma write_per_item_raises order d it rest e :
  project_row a order it = Raise e ->
  snd (write_per_item a order ((d, it) :: rest)) = Raise e.
Proof. intros H. cbn [write_per_item]. unfold write_one. rewrite H. reflexivity. Qed.

Lemma project_rows_raises order it rest e :
  project_row a order it = Raise e ->
  project_rows a order (it :: rest) = ([], Raise e).
Proof. intros H. cbn [project_rows]. rewrite H. reflexivity. Qed.

Lemma sort_by_token_id_not_nil l : l <> [] -> sort_by_token_id l <> [].
Proof.
  intros Hl Hs. apply Hl. apply Permutation_nil.
  rewrite <- Hs. apply Permutation_sym, sort_by_token_id_perm.
Qed.

(** Once every row raises, a run that has an item and a CSV to write ends
    with the exception. *)
Lemma emit_raises folder_mode items_list :
  (forall order it, exists e, project_row a order it = Raise e) ->
  items_list <> [] ->
  (folder_mode || emit_per_file a = true \/ agg_path a folder_mode <> None) ->
  exists e, status (emit a folder_mode items_list) = Raise e.
Proof.
  intros Hrow Hne Hout. unfold emit.
  set (order := unify_traits (map snd items_list)).
  destruct (folder_mode || emit_per_file a) eqn:Eper.
  - destruct items_list as [| [d it] rest]; [contradiction |].
    destruct (Hrow order it) as [e He].
    pose proof (write_per_item_raises order d it rest e He) as Hw.
    destruct (write_per_item a order ((d, it) :: rest)) as [es st].
    simpl in Hw. subst st. exists e. reflexivity.
  - destruct Hout as [Hout | Hout]; [discriminate |].
    unfold write_aggregate. destruct (agg_path a folder_mode) as [p |]; [| contradiction].
    assert (Hitems : map snd items_list <> []).
    { destruct items_list; [contradiction | discriminate]. }
    assert (Hagg : (if do_sort a then sort_by_token_id (map snd items_list)
                    else map snd items_list) <> []).
    { destruct (do_sort a); [apply sort_by_token_id_not_nil |]; exact Hitems. }
    destruct (if do_sort a then sort_by_token_id (map snd items_list)
              else map snd items_list) as [| x xs]; [contradiction |].
    destruct (Hrow order x) as [e He].
    rewrite (project_rows_raises order x xs e He). exists e. reflexivity.
Qed.

End AbortFacts.

(** C8 (amended): the Filename Renderer offers exactly [token_id], [stem],
    [image], [image_name] and [image_ext]: [token_id] is the empty string when
    the id is absent and its decimal form otherwise, [image] the raw value or
    the empty string, [image_ext] falls back to [.png] when the image name has
    no suffix.  It succeeds only if the template refers to these names alone:
    whatever the template, a reference to any other name, in a field or in a
    field nested in a format specification, makes the renderer raise; nothing
    catches that, and a run that has an item and a CSV to write ends with the
    exception.  Referring to these names alone is not enough: a template
    whose braces the formatter cannot pair, such as one with a stray closing
    brace, raises too.  It is enough on a template made of plain text,
    doubled braces and fields that are a bare name, and then each field is
    replaced by the string form of its value.  [{token_id}.png] gives [5.png]
    for the id 5 and [.png] without an id. *)
Theorem render_filename_col_well_formed :
  (forall (lib : PathLib) ps tid stem image_raw,
     forallb piece_ok ps = true ->
     only_supported (referenced_names (template_of ps)) = true ->
     render_filename_col (template_of ps) tid stem image_raw
     = Ok (substitute (filename_kwargs tid stem image_raw) ps))
  /\ (forall (lib : PathLib) tmpl tid stem image_raw,
        only_supported (referenced_names tmpl) = false ->
        exists e, render_filename_col tmpl tid stem image_raw = Raise e)
  /\ (forall (lib : PathLib) tmpl tid stem image_raw,
        In Malformed (markup tmpl) ->
        exists e, render_filename_col tmpl tid stem image_raw = Raise e)
  /\ (forall (lib : PathLib) tid stem image_raw,
        let kwargs := filename_kwargs tid stem image_raw in
        let image_name := basename_from_url_or_path image_raw in
        dict_keys kwargs = supported_names
        /\ dict_get "token_id" kwargs
           = VStr (match tid with None => EmptyString | Some n => str_of_Z n end)
        /\ dict_get "stem" kwargs = VStr stem
        /\ dict_get "image" kwargs = (if truthy image_raw then image_raw else VStr "")
        /\ dict_get "image_name" kwargs = VStr image_name
        /\ dict_get "image_ext" kwargs
           = VStr (if Str.is_empty (path_suffix image_name) then ".png"
                   else path_suffix image_name))
  /\ (forall (lib : PathLib) a folder_mode items_list,
        only_supported (referenced_names (filename_tmpl a)) = false ->
        filename_col_name a <> None ->
        items_list <> [] ->
        (folder_mode || emit_per_file a = true \/ agg_path a folder_mode <> None) ->
        exists e, status (emit a folder_mode items_list) = Raise e)
  /\ (forall (lib : PathLib) stem image_raw,
        render_filename_col "{token_id}.png" (Some 5) stem image_raw = Ok "5.png"
        /\ render_filename_col "{token_id}.png" None stem image_raw = Ok ".png").
Proof.
  split; [| split; [| split; [| split; [| split]]]].
  - intros lib ps tid stem image_raw Hok Hsup.
    rewrite (referenced_names_template ps Hok) in Hsup.
    unfold render_filename_col. rewrite (py_format_fill _ ps Hok).
    apply fill_supported, Hsup.
  - intros lib tmpl tid stem image_raw Hsup. apply render_unsupported, Hsup.
  - intros lib tmpl tid stem image_raw Hbad. apply render_malformed, Hbad.
  - intros lib tid stem image_raw. cbv zeta.
    repeat split.
    + unfold filename_kwargs, dict_get, py_or. cbn [dict_lookup String.eqb Ascii.eqb Bool.eqb].
      destruct (basename_from_url_or_path image_raw); reflexivity.
    + unfold filename_kwargs, dict_get, py_or, ext_from_name.
      cbn [dict_lookup String.eqb Ascii.eqb Bool.eqb].
      assert (Hn : py_str (if truthy (VStr (basename_from_url_or_path image_raw))
                           then VStr (basename_from_url_or_path image_raw) else VStr "")
                   = basename_from_url_or_path image_raw).
      { destruct (basename_from_url_or_path image_raw); reflexivity. }
      rewrite Hn.
      destruct (path_suffix (basename_from_url_or_path image_raw)); reflexivity.
  - intros lib a fm items_list Hsup Hcol Hne Hout.
    apply emit_raises; [| exact Hne | exact Hout].
    intros order it. unfold project_row.
    destruct (filename_col_name a) as [n |]; [| contradiction].
    destruct (render_unsupported (token_id it) (stem it) (image_raw it) _ Hsup)
      as [e He].
    rewrite He. exists e. reflexivity.
  - intros lib stem image_raw. split; reflexivity.
Qed.

(** C8, as stated, fails: [{token_id}}.png] refers to [token_id] only, and
    formatting it raises on the stray closing brace. *)
Lemma stray_brace_raises :
  only_supported (referenced_names "{token_id}}.png") = true
  /\ render_filename_col (lib := PlainNames.lib) "{token_id}}.png" (Some 5) "5" (VStr "5.png")
     = Raise ValueError.
Proof. split; reflexivity. Qed.

(** [{token_id}.png] renders, [{edition}.png] raises, and a run with that
    template and one item ends with the exception. *)
Lemma render_filename_col_well_formed_witness :
  render_filename_col (lib := PlainNames.lib) "{token_id}.png" (Some 5) "5" (VStr "art/5.jpg")
  = Ok "5.png"
  /\ (exists e,
        render_filename_col (lib := PlainNames.lib) "{edition}.png" (Some 5) "5"
          (VStr "art/5.jpg") = Raise e)
  /\ (exists e,
        status (emit (lib := PlainNames.lib) edition_args false
                  [(PerItem "1.csv", item_with_id (Some 1) "1")]) = Raise e).
Proof.
  destruct render_filename_col_well_formed as [Hok [Hbad [_ [_ [Hrun _]]]]].
  split; [| split].
  - apply (Hok PlainNames.lib token_id_png (Some 5) "5" (VStr "art/5.jpg")); reflexivity.
  - apply (Hbad PlainNames.lib "{edition}.png" (Some 5) "5" (VStr "art/5.jpg")); reflexivity.
  - apply (Hrun PlainNames.lib edition_args false).
    + reflexivity.
    + discriminate.
    + discriminate.
    + right. discriminate.
Defined.

(** Fields that are more than a bare name go through the library: with the
    conversion [!r] the id comes out quoted. *)
Lemma conversion_goes_through :
  render_filename_col (lib := PlainNames.lib) "{token_id!r}.png" (Some 5) "5" (VStr "art/5.jpg")
  = Ok "'5'.png".
Proof. reflexivity. Qed.

(** ** Rows and header *)

Section RowFacts.

Context {lib : PathLib}.
Variable a : args.

Lemma header_length order :
  List.length (header a order)
  = (List.length (base_cols a)
     + match filename_col_name a with Some _ => 1 | None => 0 end
     + List.length order)%nat.
Proof.
  unfold header. rewrite !length_app.
  destruct (filename_col_name a); simpl; lia.
Qed.

Lemma project_row_aligned order it r :
  project_row a order it = Ok r -> aligned a order it r.
Proof.
  unfold project_row, aligned. intros H.
  set (base := map (fun c => dict_get_default c (VStr "") (item_dict it)) (base_cols a)) in *.
  set (cells := map (fun t => dict_get_default t (VStr "") (traits it)) order) in *.
  assert (Hb : List.length base = List.length (base_cols a)) by apply length_map.
  assert (Hc : List.length cells = List.length order) by apply length_map.
  assert (Hcell : forall i t, nth_error order i = Some t ->
                              dict_lookup t (traits it) = None ->
                              nth_error cells i = Some (VStr "")).
  { intros i t Hi Ht. unfold cells. rewrite nth_error_map, Hi. simpl.
    unfold dict_get_default. rewrite Ht. reflexivity. }
  rewrite header_length.
  destruct (filename_col_name a) as [n |].
  - destruct (render_filename_col _ _ _ _) as [fn | e]; try discriminate.
    simpl in H. injection H as <-. split.
    + rewrite !length_app. simpl. lia.
    + intros i t Hi Ht.
      rewrite nth_error_app2 by lia.
      replace (List.length (base_cols a) + 1 + List.length order - List.length order + i - List.length base)%nat
        with (S i) by lia.
      simpl. eauto.
  - injection H as <-. split.
    + rewrite length_app. lia.
    + intros i t Hi Ht.
      rewrite nth_error_app2 by lia.
      replace (List.length (base_cols a) + 0 + List.length order - List.length order + i - List.length base)%nat
        with i by lia.
      eauto.
Qed.

Lemma rows_of_incl order items items' data :
  (forall it, In it items -> In it items') ->
  rows_of a order items data -> rows_of a order items' data.
Proof.
  intros Hin. apply Forall_impl. intros r [it [Hit Hr]]. exists it. auto.
Qed.

Lemma project_rows_rows_of order items :
  rows_of a order items (fst (project_rows a order items)).
Proof.
  induction items as [| it items IH]; simpl; [constructor |].
  destruct (project_row a order it) as [r | e] eqn:E;
    [| constructor].
  destruct (project_rows a order items) as [rs st]. simpl in *.
  constructor.
  - exists it. split; [left; reflexivity | exact E].
  - eapply rows_of_incl; [| exact IH]. intros; right; assumption.
Qed.

Lemma write_per_item_rows order l d rows :
  In (Wrote d rows) (fst (write_per_item a order l)) ->
  exists data, rows = header_rows a order ++ data /\ rows_of a order (map snd l) data.
Proof.
  induction l as [| [d0 it] l IH]; simpl; [contradiction |].
  unfold write_one.
  destruct (project_row a order it) as [r | e] eqn:E.
  - destruct (write_per_item a order l) as [es st]. simpl in *.
    intros [H | H].
    + injection H as <- <-. exists [r]. split; [reflexivity |].
      constructor; [| constructor]. exists it. split; [left; reflexivity | exact E].
    + destruct (IH H) as [data [Hrows Hdata]]. exists data. split; [exact Hrows |].
      eapply rows_of_incl; [| exact Hdata]. intros; right; assumption.
  - simpl. intros [H | []]. injection H as <- <-.
    exists []. split; [symmetry; apply app_nil_r | constructor].
Qed.

Lemma write_aggregate_rows order folder_mode items d rows :
  In (Wrote d rows) (fst (write_aggregate a order folder_mode items)) ->
  exists data, rows = header_rows a order ++ data /\ rows_of a order items data.
Proof.
  unfold write_aggregate. destruct (agg_path a folder_mode) as [p |]; [| contradiction].
  set (agg_items := if do_sort a then sort_by_token_id items else items).
  pose proof (project_rows_rows_of order agg_items) as Hrows.
  destruct (project_rows a order agg_items) as [rs st]. simpl in *.
  intros [H | []]. injection H as <- <-. exists rs. split; [reflexivity |].
  eapply rows_of_incl; [| exact Hrows].
  intros it Hit. unfold agg_items in Hit. destruct (do_sort a); [| exact Hit].
  eapply Permutation_in; [apply Permutation_sym, sort_by_token_id_perm | exact Hit].
Qed.

Lemma emit_rows folder_mode items_list d rows :
  In (Wrote d rows) (events (emit a folder_mode items_list)) ->
  exists data,
    rows = header_rows a (unify_traits (map snd items_list)) ++ data
    /\ rows_of a (unify_traits (map snd items_list)) (map snd items_list) data.
Proof.
  unfold emit. set (order := unify_traits (map snd items_list)).
  assert (Hper : forall es st,
             (if folder_mode || emit_per_file a
              then write_per_item a order items_list else ([], Ok tt)) = (es, st) ->
             In (Wrote d rows) es ->
             exists data, rows = header_rows a order ++ data
                          /\ rows_of a order (map snd items_list) data).
  { intros es st Heq Hin. destruct (folder_mode || emit_per_file a).
    - apply (write_per_item_rows order items_list d rows). rewrite Heq. exact Hin.
    - injection Heq as <- <-. contradiction. }
  destruct (if folder_mode || emit_per_file a
            then write_per_item a order items_list else ([], Ok tt)) as [es st] eqn:Eper.
  specialize (Hper es st eq_refl).
  destruct st as [[] | e].
  - pose proof (write_aggregate_rows order folder_mode (map snd items_list) d rows) as Hagg.
    destruct (write_aggregate a order folder_mode (map snd items_list)) as [es' st'].
    simpl in *. intros Hin. apply in_app_or in Hin. destruct Hin; auto.
  - simpl. exact Hper.
Qed.

Lemma ingest_kept files :
  ingest a files
  = (map (fun f => Warned (file_name f)) (filter (unreadable a) files), kept a files).
Proof.
  unfold kept, unreadable.
  induction files as [| f files IH]; [reflexivity |].
  cbn [ingest filter flat_map]. rewrite IH.
  fold (parsed a f). destruct (parsed a f); reflexivity.
Qed.

(** In folder mode the run is the warnings, then the run over the files
    that made it. *)
Lemma main_folder w :
  given (metadata a) = None ->
  json_dir w <> [] ->
  main a w
  = {| events := map (fun f => Warned (file_name f)) (filter (unreadable a) (json_dir w))
                 ++ events (emit a true (kept a (json_dir w)));
       status := status (emit a true (kept a (json_dir w))) |}.
Proof.
  intros Hm Hne. unfold main. rewrite Hm.
  destruct (json_dir w) as [| f files] eqn:E; [contradiction |].
  rewrite ingest_kept. reflexivity.
Qed.

Lemma main_rows w d rows :
  In (Wrote d rows) (events (main a w)) ->
  exists data,
    rows = header_rows a (batch_order a w) ++ data
    /\ rows_of a (batch_order a w) (batch_items a w) data.
Proof.
  unfold batch_order, batch_items, main.
  destruct (given (metadata a)) as [path |].
  - destruct (file_at w path) as [doc |]; [| contradiction].
    destruct (load_metadata_file doc (image_prefix a)) as [items | e];
      try contradiction.
    intros H. apply emit_rows in H.
    rewrite map_map, map_id in H. exact H.
  - destruct (json_dir w) as [| f files] eqn:E; [contradiction |].
    rewrite ingest_kept. cbn [events].
    intros H. apply in_app_or in H. destruct H as [H | H].
    + apply in_map_iff in H. destruct H as [f' [Hf' _]]. discriminate.
    + apply emit_rows in H. exact H.
Qed.

End RowFacts.

(** C1: the header of a run is computed once, as the base columns, then the
    filename column when there is one, then the trait columns of the whole
    batch; every CSV written by the run, per item or aggregated, starts with
    that header (unless headers are switched off) and continues with rows,
    each of which is the row of an item of the batch; such a row has exactly
    as many cells as the header has columns, and holds the empty string under
    each trait column whose trait that very item lacks. *)
Theorem rows_match_unified_header (lib : PathLib) (a : args) (w : world)
    (d : dest) (rows : list row) :
  In (Wrote d rows) (events (main a w)) ->
  batch_header a w
  = base_cols a
    ++ (match filename_col_name a with Some n => [n] | None => [] end)
    ++ unify_traits (batch_items a w)
  /\ exists data,
       rows = (if no_header a then [] else [map VStr (batch_header a w)]) ++ data
       /\ Forall (fun r => List.length r = List.length (batch_header a w)
                           /\ exists it, In it (batch_items a w)
                                         /\ project_row a (batch_order a w) it = Ok r
                                         /\ aligned a (batch_order a w) it r)
                 data.
Proof.
  intros H. split; [reflexivity |].
  destruct (main_rows a w d rows H) as [data [Hrows Hdata]].
  exists data. split; [exact Hrows |].
  eapply Forall_impl; [| exact Hdata].
  intros r [it [Hit Hr]]. pose proof (project_row_aligned a _ it r Hr) as Hal.
  split; [exact (proj1 Hal) |]. exists it. auto.
Qed.

(** The aggregated CSV of the three-entry run: five columns, and two rows of
    five cells each. *)
Lemma rows_match_unified_header_witness :
  batch_header metadata_args metadata_world
  = ["token_id"; "image"; "filename"; "A"; "B"]
  /\ exists data,
       metadata_rows
       = (if no_header metadata_args then []
          else [map VStr (batch_header metadata_args metadata_world)]) ++ data
       /\ Forall (fun r =>
                    List.length r = List.length (batch_header metadata_args metadata_world)
                    /\ exists it,
                         In it (batch_items metadata_args metadata_world)
                         /\ project_row (lib := PlainNames.lib) metadata_args
                              (batch_order metadata_args metadata_world) it = Ok r
                         /\ aligned metadata_args
                              (batch_order metadata_args metadata_world) it r)
                 data.
Proof.
  destruct (rows_match_unified_header PlainNames.lib metadata_args metadata_world
              (Aggregate "metadata.csv") metadata_rows) as [Hh Hrows].
  - vm_compute. right. right. left. reflexivity.
  - split; [rewrite Hh; reflexivity | exact Hrows].
Defined.

(** ** Documents that cannot be read *)

Lemma kept_readable_only a files :
  kept a files = kept a (filter (fun f => negb (unreadable a f)) files).
Proof.
  unfold kept, unreadable. induction files as [| f files IH]; [reflexivity |].
  cbn [flat_map filter]. destruct (parsed a f) as [it |] eqn:E; cbn [negb flat_map].
  - rewrite E, IH. reflexivity.
  - exact IH.
Qed.

Lemma parsed_none a f :
  parsed a f = None
  <-> file_doc f = Undecodable
      \/ exists v, file_doc f = Decoded v /\ is_object v = false.
Proof.
  unfold parsed. destruct (file_doc f) as [| v].
  - split; [left; reflexivity | reflexivity].
  - split.
    + intros H. right. exists v. split; [reflexivity |].
      destruct v; try reflexivity. discriminate H.
    + intros [H | [v' [Hv Ho]]]; [discriminate |].
      injection Hv as <-. destruct v; try reflexivity. discriminate Ho.
Qed.

(** C9: in folder mode a document that cannot be read, or whose top level is
    not an object, costs one warning and nothing else: the run is the
    warnings followed by the very run that the remaining documents give on
    their own, so the document is in no CSV and its siblings are processed as
    if it were not there; in aggregated mode an undecodable top-level
    document ends the run with the exception and no CSV at all is written. *)
Theorem unreadable_document_by_mode :
  (forall (lib : PathLib) a w,
     given (metadata a) = None ->
     json_dir w <> [] ->
     let good := filter (fun f => negb (unreadable a f)) (json_dir w) in
     let bad := filter (unreadable a) (json_dir w) in
     main a w
     = {| events := map (fun f => Warned (file_name f)) bad
                    ++ events (emit a true (kept a good));
          status := status (emit a true (kept a good)) |}
     /\ (forall f, In f (json_dir w) -> unreadable a f = true ->
                   In (Warned (file_name f)) (events (main a w)))
     /\ batch_items a w = map snd (kept a good))
  /\ (forall a f,
        unreadable a f = true
        <-> file_doc f = Undecodable
            \/ exists v, file_doc f = Decoded v /\ is_object v = false)
  /\ (forall (lib : PathLib) a w path,
        given (metadata a) = Some path ->
        file_at w path = Some Undecodable ->
        main a w = {| events := []; status := Raise DecodeError |}).
Proof.
  split; [| split].
  - intros lib a w Hm Hne good bad.
    assert (Hmain : main a w
                    = {| events := map (fun f => Warned (file_name f)) bad
                                   ++ events (emit a true (kept a good));
                         status := status (emit a true (kept a good)) |}).
    { unfold good, bad. rewrite <- kept_readable_only. apply main_folder; assumption. }
    split; [exact Hmain | split].
    + intros f Hf Hbad. rewrite Hmain. cbn [events]. apply in_or_app. left.
      apply in_map_iff. exists f. split; [reflexivity |].
      apply filter_In. split; assumption.
    + unfold batch_items, good. rewrite Hm, <- kept_readable_only. reflexivity.
  - intros a f. rewrite <- (parsed_none a f). unfold unreadable.
    destruct (parsed a f); split; intros H; try reflexivity; discriminate H.
  - intros lib a w path Hm Hdoc. unfold main. rewrite Hm, Hdoc. reflexivity.
Qed.

(** The folder with a broken second file: it is warned about and the items
    are those of the first and third file; the aggregated run on a broken
    document writes nothing. *)
Lemma unreadable_document_by_mode_witness :
  In (Warned "2.json") (events (main (lib := PlainNames.lib) folder_args folder_world))
  /\ map (fun it => stem it) (batch_items folder_args folder_world) = ["1"; "3"]
  /\ unreadable folder_args broken_file = true
  /\ main (lib := PlainNames.lib) metadata_args broken_world
     = {| events := []; status := Raise DecodeError |}.
Proof.
  destruct unreadable_document_by_mode as [Hfolder [Hbad Hagg]].
  destruct (Hfolder PlainNames.lib folder_args folder_world eq_refl)
    as [_ [Hwarn Hitems]]; [discriminate |].
  split; [| split; [| split]].
  - apply (Hwarn broken_file); [right; left; reflexivity | reflexivity].
  - rewrite Hitems. reflexivity.
  - apply Hbad. left. reflexivity.
  - apply (Hagg PlainNames.lib metadata_args broken_world "metadata.json"); reflexivity.
Defined.

(** ** Entries of an aggregated document that are not objects *)

Lemma str_of_Z_not_empty z : Str.is_empty (str_of_Z z) = false.
Proof.
  unfold str_of_Z. destruct (Z.to_int z) as [u | u]; destruct u; reflexivity.
Qed.

Lemma normalize_one_stem prefix obj key :
  Str.is_empty key = false -> stem (normalize_one prefix obj key) = key.
Proof. intros H. unfold normalize_one. rewrite H. reflexivity. Qed.

Lemma objects_of_cons {K : Type} (i : K) (v : pyval) (l : list (K * pyval)) :
  objects_of ((i, v) :: l)
  = (if is_object v then match v with VDict o => [(i, o)] | _ => [] end else [])
    ++ objects_of l.
Proof. destruct v; reflexivity. Qed.

Lemma items_of_list_numbered prefix raw : forall idx,
  items_of_list prefix idx raw
  = map (fun '(i, o) => normalize_one prefix o (str_of_Z i)) (objects_of (numbered idx raw)).
Proof.
  induction raw as [| v raw IH]; intros idx; [reflexivity |].
  cbn [items_of_list numbered]. rewrite objects_of_cons, map_app, <- IH.
  destruct v; reflexivity.
Qed.

Lemma items_of_dict_objects prefix raw :
  items_of_dict prefix raw
  = map (fun '(k, o) => normalize_one prefix (with_key_as_id k o) k) (objects_of raw).
Proof.
  induction raw as [| [k v] raw IH]; [reflexivity |].
  cbn [items_of_dict]. rewrite IH, objects_of_cons, map_app.
  destruct v; reflexivity.
Qed.

Lemma objects_of_numbered_length raw : forall idx,
  List.length (objects_of (numbered idx raw)) = count_objects raw.
Proof.
  unfold count_objects.
  induction raw as [| v raw IH]; intros idx; [reflexivity |].
  cbn [numbered filter]. rewrite objects_of_cons, length_app, IH.
  destruct v; reflexivity.
Qed.

Lemma emit_never_warns {lib : PathLib} a folder_mode items_list n :
  ~ In (Warned n) (events (emit a folder_mode items_list)).
Proof.
  intros H.
  assert (Hper : forall order l, ~ In (Warned n) (fst (write_per_item a order l))).
  { intros order l. induction l as [| [d it] l IH]; simpl; [tauto |].
    unfold write_one. destruct (project_row a order it).
    - destruct (write_per_item a order l) as [es st]. simpl in *.
      intros [E | E]; [discriminate | tauto].
    - simpl. intros [E | []]. discriminate. }
  unfold emit in H.
  set (order := unify_traits (map snd items_list)) in *.
  assert (Hper' : ~ In (Warned n)
                    (fst (if folder_mode || emit_per_file a
                          then write_per_item a order items_list else ([], Ok tt)))).
  { destruct (folder_mode || emit_per_file a); [apply Hper | simpl; tauto]. }
  destruct (if folder_mode || emit_per_file a
            then write_per_item a order items_list else ([], Ok tt)) as [es st].
  simpl in Hper'.
  destruct st as [[] | e]; [| exact (Hper' H)].
  unfold write_aggregate in H.
  destruct (agg_path a folder_mode) as [p |].
  - destruct (project_rows a order _) as [rs st']. simpl in H.
    apply in_app_or in H. destruct H as [H | [H | []]]; [exact (Hper' H) | discriminate].
  - simpl in H. rewrite app_nil_r in H. exact (Hper' H).
Qed.

(** C10: in aggregated mode the entries of a top-level list, and the values
    of a top-level mapping, that are not objects are dropped without a
    warning; each item kept from a list has as stem its 1-based position in
    the ORIGINAL list, so positions of dropped entries are missing from the
    stems, and there are as many items as the list has objects, which can be
    fewer than its length: the list [{}, 5, {}] gives the stems [1] and [3]. *)
Theorem non_object_entries_dropped :
  (forall prefix raw,
     load_metadata_file (Decoded (VList raw)) prefix
     = Ok (map (fun '(i, o) => normalize_one prefix o (str_of_Z i))
               (objects_of (numbered 1 raw))))
  /\ (forall prefix raw,
        match load_metadata_file (Decoded (VList raw)) prefix with
        | Ok items =>
            map stem items = map (fun '(i, _) => str_of_Z i) (objects_of (numbered 1 raw))
            /\ List.length items = count_objects raw
            /\ (List.length items <= List.length raw)%nat
        | _ => False
        end)
  /\ (forall prefix raw,
        load_metadata_file (Decoded (VDict raw)) prefix
        = Ok (map (fun '(k, o) => normalize_one prefix (with_key_as_id k o) k)
                  (objects_of raw)))
  /\ (forall (lib : PathLib) a w path n,
        given (metadata a) = Some path ->
        ~ In (Warned n) (events (main a w)))
  /\ (forall prefix,
        match load_metadata_file (Decoded (VList [VDict []; VInt 5; VDict []])) prefix with
        | Ok items => map stem items = ["1"; "3"]
        | _ => False
        end).
Proof.
  split; [| split; [| split; [| split]]].
  - intros prefix raw. cbn [load_metadata_file]. rewrite items_of_list_numbered. reflexivity.
  - intros prefix raw. cbn [load_metadata_file]. rewrite items_of_list_numbered.
    split; [| split].
    + rewrite map_map. apply map_ext. intros [i o].
      apply normalize_one_stem, str_of_Z_not_empty.
    + rewrite length_map. apply objects_of_numbered_length.
    + rewrite length_map, objects_of_numbered_length. apply filter_length_le.
  - intros prefix raw. cbn [load_metadata_file]. rewrite items_of_dict_objects. reflexivity.
  - intros lib a w path n Hm. unfold main. rewrite Hm.
    destruct (file_at w path) as [doc |]; [| simpl; tauto].
    destruct (load_metadata_file doc (image_prefix a)); [| simpl; tauto].
    apply emit_never_warns.
  - intros prefix. reflexivity.
Qed.

(** The list whose second entry is a number: stems [1] and [3], no warning. *)
Lemma non_object_entries_dropped_witness :
  map (fun it => stem it) (batch_items metadata_args metadata_world) = ["1"; "3"]
  /\ ~ In (Warned "2") (events (main (lib := PlainNames.lib) metadata_args metadata_world)).
Proof.
  destruct non_object_entries_dropped as [_ [_ [_ [Hquiet _]]]].
  split; [reflexivity |].
  apply (Hquiet PlainNames.lib metadata_args metadata_world "metadata.json"). reflexivity.
Defined.

(** * More properties of the script *)

(** ** Base columns *)

Lemma default_base_fields (it : item) (c : string) :
  In c default_base -> exists v, dict_lookup c (item_dict it) = Some v.
Proof.
  intros H. simpl in H.
  repeat (destruct H as [H | H]; [subst c; eexists; reflexivity |]).
  contradiction.
Qed.

Lemma base_cols_allowed (a : args) (c : string) :
  In c (base_cols a) -> In c default_base.
Proof.
  unfold base_cols. destruct (only_traits a); [intros [] |].
  destruct (fields a) as [[| f fs] |]; try (intros H; exact H).
  intros H. apply filter_In in H. apply mem_In. apply H.
Qed.

(** X1: whatever the options, every base column is one of the eight allowed
    names, the columns kept from [--fields] stand in the order given there,
    and each base column names a field every item has: the cell is that
    field, the fallback of [it.get(c, "")] is never taken, and [image_raw],
    [traits] and [_stem] are never written as base columns. *)
Theorem base_columns_name_item_fields (a : args) (it : item) (c : string) :
  In c (base_cols a) ->
  In c default_base
  /\ (exists v, dict_lookup c (item_dict it) = Some v
                /\ dict_get_default c (VStr "") (item_dict it) = v)
  /\ c <> "image_raw" /\ c <> "traits" /\ c <> "_stem"
  /\ (forall fs, only_traits a = false -> fields a = Some fs -> fs <> [] ->
                 base_cols a = filter (fun f => mem f default_base) fs).
Proof.
  intros H. pose proof (base_cols_allowed a c H) as Hd.
  split; [exact Hd |]. split.
  { destruct (default_base_fields it c Hd) as [v Hv]. exists v.
    split; [exact Hv |]. unfold dict_get_default. rewrite Hv. reflexivity. }
  repeat split.
  - intros ->. simpl in Hd. repeat (destruct Hd as [Hd | Hd]; [discriminate |]). contradiction.
  - intros ->. simpl in Hd. repeat (destruct Hd as [Hd | Hd]; [discriminate |]). contradiction.
  - intros ->. simpl in Hd. repeat (destruct Hd as [Hd | Hd]; [discriminate |]). contradiction.
  - intros fs Ht Hf Hne. unfold base_cols. rewrite Ht, Hf.
    destruct fs; [contradiction | reflexivity].
Qed.

(** With [--fields stem name bogus image] the base columns are [name] and
    [image]. *)
Lemma base_columns_name_item_fields_witness :
  base_cols {| metadata := None; emit_per_file := false; do_sort := true;
               id_from := None; image_prefix := None; aggregate := None;
               no_header := false; only_traits := false;
               fields := Some ["_stem"; "name"; "bogus"; "image"];
               filename_col := None; filename_tmpl := "{token_id}.png" |}
  = ["name"; "image"]
  /\ In "image" default_base.
Proof.
  set (a := {| metadata := None; emit_per_file := false; do_sort := true;
               id_from := None; image_prefix := None; aggregate := None;
               no_header := false; only_traits := false;
               fields := Some ["_stem"; "name"; "bogus"; "image"];
               filename_col := None; filename_tmpl := "{token_id}.png" |}).
  destruct (base_columns_name_item_fields a (item_with_id None "x") "image")
    as [Hd [_ [_ [_ [_ Hf]]]]].
  - vm_compute. right. left. reflexivity.
  - split; [| exact Hd].
    rewrite (Hf ["_stem"; "name"; "bogus"; "image"]); [reflexivity | reflexivity | reflexivity | discriminate].
Defined.

(** ** Trait values *)

Lemma dict_lookup_In_keys {V : Type} (k : string) (v : V) (d : list (string * V)) :
  dict_lookup k d = Some v -> In k (dict_keys d).
Proof.
  unfold dict_keys. induction d as [| [k0 v0] d IH]; simpl; [discriminate |].
  destruct (String.eqb k k0) eqn:E.
  - apply String.eqb_eq in E. auto.
  - intros H. right. apply IH, H.
Qed.

Lemma project_row_trait_cells {lib : PathLib} (a : args) order it r :
  project_row a order it = Ok r ->
  forall i t,
    nth_error order i = Some t ->
    nth_error r (List.length (header a order) - List.length order + i)
    = Some (trait_cell it t).
Proof.
  unfold project_row. intros H i t Hi.
  set (base := map (fun c => dict_get_default c (VStr "") (item_dict it)) (base_cols a)) in *.
  set (cells := map (fun t => dict_get_default t (VStr "") (traits it)) order) in *.
  assert (Hb : List.length base = List.length (base_cols a)) by apply length_map.
  assert (Hcell : nth_error cells i = Some (trait_cell it t)).
  { unfold cells. rewrite nth_error_map, Hi. reflexivity. }
  rewrite header_length.
  destruct (filename_col_name a) as [n |].
  - destruct (render_filename_col _ _ _ _) as [fn | e]; try discriminate.
    simpl in H. injection H as <-.
    rewrite nth_error_app2 by lia.
    replace (List.length (base_cols a) + 1 + List.length order - List.length order + i
             - List.length base)%nat with (S i) by lia.
    exact Hcell.
  - injection H as <-.
    rewrite nth_error_app2 by lia.
    replace (List.length (base_cols a) + 0 + List.length order - List.length order + i
             - List.length base)%nat with i by lia.
    exact Hcell.
Qed.

(** X2: no trait value is lost.  Whenever an item of the batch has a trait
    [k] with value [v], the trait columns of the batch have a column [k], and
    the row of the item holds [v] in that column. *)
Theorem trait_values_reach_rows (lib : PathLib) (a : args) (items : list item)
    (it : item) (r : row) (k : string) (v : pyval) :
  In it items ->
  project_row a (unify_traits items) it = Ok r ->
  dict_lookup k (traits it) = Some v ->
  exists i,
    nth_error (unify_traits items) i = Some k
    /\ nth_error r (List.length (header a (unify_traits items))
                    - List.length (unify_traits items) + i) = Some v.
Proof.
  intros Hit Hr Hk.
  assert (Hin : In k (unify_traits items)).
  { rewrite unify_traits_first_seen, first_seen_In.
    unfold batch_trait_names. apply in_flat_map. exists it.
    split; [exact Hit | exact (dict_lookup_In_keys k v _ Hk)]. }
  apply In_nth_error in Hin. destruct Hin as [i Hi]. exists i.
  split; [exact Hi |].
  rewrite (project_row_trait_cells a _ it r Hr i k Hi).
  unfold trait_cell, dict_get_default. rewrite Hk. reflexivity.
Qed.

(** In the three-entry run the item with id 1 has [B = 2]; its row holds 2
    under [B], the second trait column. *)
Lemma trait_values_reach_rows_witness :
  exists i,
    nth_error (unify_traits (batch_items metadata_args metadata_world)) i = Some "B"
    /\ nth_error [VInt 1; VStr "art/7.png"; VStr "1.png"; VStr ""; VInt 2]
         (List.length (header metadata_args
                         (unify_traits (batch_items metadata_args metadata_world)))
          - List.length (unify_traits (batch_items metadata_args metadata_world)) + i)
       = Some (VInt 2).
Proof.
  apply (trait_values_reach_rows PlainNames.lib metadata_args
           (batch_items metadata_args metadata_world)
           (normalize_one None
              [("token_id", VInt 1); ("image", VStr "art/7.png");
               ("attributes", VList [attribute "B" (VInt 2)])] "3")).
  - vm_compute. right. left. reflexivity.
  - vm_compute. reflexivity.
  - vm_compute. reflexivity.
Defined.

(** ** How a run ends *)



Section FormatErrors.

Context {lib : PathLib}.
Variable kwargs : dict.




End FormatErrors.

Section EndFacts.

Context {lib : PathLib}.
Variable a : args.













End EndFacts.





(** ** What a completed run has written *)

Section LayoutFacts.

Context {lib : PathLib}.
Variable a : args.

Lemma write_per_item_complete order l :
  snd (write_per_item a order l) = Ok tt ->
  Forall2 (per_item_event a order) l (fst (write_per_item a order l)).
Proof.
  induction l as [| [d it] l IH]; cbn [write_per_item]; [constructor |].
  unfold write_one. destruct (project_row a order it) as [r | e] eqn:E.
  - destruct (write_per_item a order l) as [es st]. cbn [fst snd] in *.
    intros Hst. constructor; [| exact (IH Hst)].
    exists r. split; [exact E | reflexivity].
  - discriminate.
Qed.

Lemma project_rows_complete order l :
  snd (project_rows a order l) = Ok tt ->
  Forall2 (fun it r => project_row a order it = Ok r) l (fst (project_rows a order l)).
Proof.
  induction l as [| it l IH]; cbn [project_rows]; [constructor |].
  destruct (project_row a order it) as [r | e] eqn:E.
  - destruct (project_rows a order l) as [rs st]. cbn [fst snd] in *.
    intros Hst. constructor; [exact E | exact (IH Hst)].
  - discriminate.
Qed.

End LayoutFacts.

Lemma emit_layout {lib : PathLib} (a : args) (folder_mode : bool)
    (items_list : list (dest * item)) :
  status (emit a folder_mode items_list) = Ok tt ->
  exists per agg,
    events (emit a folder_mode items_list) = per ++ agg
    /\ (if folder_mode || emit_per_file a
        then Forall2 (per_item_event a (unify_traits (map snd items_list))) items_list per
        else per = [])
    /\ match agg_path a folder_mode with
       | Some p =>
           exists rows,
             agg = [Wrote (Aggregate p)
                      (header_rows a (unify_traits (map snd items_list)) ++ rows)]
             /\ Forall2 (fun it r =>
                           project_row a (unify_traits (map snd items_list)) it = Ok r)
                        (if do_sort a then sort_by_token_id (map snd items_list)
                         else map snd items_list)
                        rows
       | None => agg = []
       end.
Proof.
  unfold emit. set (order := unify_traits (map snd items_list)).
  assert (Hper : forall es st,
             (if folder_mode || emit_per_file a
              then write_per_item a order items_list else ([], Ok tt)) = (es, st) ->
             st = Ok tt ->
             if folder_mode || emit_per_file a
             then Forall2 (per_item_event a order) items_list es else es = []).
  { intros es st Heq Hst. destruct (folder_mode || emit_per_file a).
    - pose proof (write_per_item_complete a order items_list) as Hw.
      rewrite Heq in Hw. exact (Hw Hst).
    - injection Heq as <- _. reflexivity. }
  destruct (if folder_mode || emit_per_file a
            then write_per_item a order items_list else ([], Ok tt)) as [es st].
  specialize (Hper es st eq_refl).
  destruct st as [[] | e]; cbn [status]; [| discriminate].
  specialize (Hper eq_refl).
  unfold write_aggregate. destruct (agg_path a folder_mode) as [p |].
  - pose proof (project_rows_complete a order
                  (if do_sort a then sort_by_token_id (map snd items_list)
                   else map snd items_list)) as Hagg.
    destruct (project_rows a order _) as [rs st]. cbn [fst snd status events] in *.
    intros Hst. exists es, [Wrote (Aggregate p) (header_rows a order ++ rs)].
    split; [reflexivity |]. split; [exact Hper |].
    exists rs. split; [reflexivity | exact (Hagg Hst)].
  - intros _. exists es, []. cbn [events]. split; [reflexivity |].
    split; [exact Hper | reflexivity].
Qed.

(** X4: what a run that completes has written, in order.  First, when
    per-item CSVs are due (always in folder mode, on request in aggregated
    mode), one CSV per item in ingestion order, each holding the header rows
    and exactly one data row, the row of its item.  Then, when an aggregated
    CSV is due, that one CSV: the header rows followed by exactly one row per
    item, in the order of the sorted list (or of ingestion with sorting
    off).  Nothing else is written. *)
Theorem completed_run_layout (lib : PathLib) (a : args) (folder_mode : bool)
    (items_list : list (dest * item)) :
  status (emit a folder_mode items_list) = Ok tt ->
  exists per agg,
    events (emit a folder_mode items_list) = per ++ agg
    /\ (if folder_mode || emit_per_file a
        then Forall2 (per_item_event a (unify_traits (map snd items_list))) items_list per
        else per = [])
    /\ match agg_path a folder_mode with
       | Some p =>
           exists rows,
             agg = [Wrote (Aggregate p)
                      (header_rows a (unify_traits (map snd items_list)) ++ rows)]
             /\ Forall2 (fun it r =>
                           project_row a (unify_traits (map snd items_list)) it = Ok r)
                        (if do_sort a then sort_by_token_id (map snd items_list)
                         else map snd items_list)
                        rows
       | None => agg = []
       end.
Proof. apply emit_layout. Qed.

(** The writing part of the folder run over its two readable files. *)
Lemma completed_run_layout_witness :
  exists per agg,
    events (emit (lib := PlainNames.lib) folder_args true
              (kept folder_args (json_dir folder_world))) = per ++ agg
    /\ (if true || emit_per_file folder_args
        then Forall2 (per_item_event (lib := PlainNames.lib) folder_args
                        (unify_traits (map snd (kept folder_args (json_dir folder_world)))))
                     (kept folder_args (json_dir folder_world)) per
        else per = [])
    /\ match agg_path folder_args true with
       | Some p =>
           exists rows,
             agg = [Wrote (Aggregate p)
                      (header_rows folder_args
                         (unify_traits (map snd (kept folder_args (json_dir folder_world))))
                       ++ rows)]
             /\ Forall2 (fun it r =>
                           project_row (lib := PlainNames.lib) folder_args
                             (unify_traits (map snd (kept folder_args (json_dir folder_world))))
                             it = Ok r)
                        (if do_sort folder_args
                         then sort_by_token_id (map snd (kept folder_args (json_dir folder_world)))
                         else map snd (kept folder_args (json_dir folder_world)))
                        rows
       | None => agg = []
       end.
Proof.
  apply (completed_run_layout PlainNames.lib folder_args true
           (kept folder_args (json_dir folder_world))).
  reflexivity.
Defined.

(** ** Ids and stems in aggregated mode *)

Lemma items_of_dict_In prefix raw k obj :
  In (k, VDict obj) raw ->
  In (normalize_one prefix (with_key_as_id k obj) k) (items_of_dict prefix raw).
Proof.
  induction raw as [| [k0 v0] raw IH]; [intros [] |].
  intros [H | H].
  - injection H as -> ->. left. reflexivity.
  - specialize (IH H). cbn [items_of_dict]. destruct v0; try exact IH.
    right. exact IH.
Qed.

Lemma py_int_not_empty k n : py_int k = Some n -> Str.is_empty k = false.
Proof. destruct k; [discriminate | reflexivity]. Qed.

(** X6: in a top-level mapping, an object without a [token_id] key whose own
    key reads as an integer gets that integer as token id, whatever its
    [edition], [tokenId] or [id] say, and the key as stem; an object that has
    a [token_id] key, readable or not, is left as it is. *)
Theorem mapping_key_is_token_id (prefix : option string) (raw : dict)
    (k : string) (obj : dict) (n : Z) :
  In (k, VDict obj) raw ->
  dict_has "token_id" obj = false ->
  py_int k = Some n ->
  (exists it, In it (items_of_dict prefix raw) /\ token_id it = Some n /\ stem it = k)
  /\ (forall k' obj', dict_has "token_id" obj' = true -> with_key_as_id k' obj' = obj').
Proof.
  intros Hin Hno Hk. split.
  - exists (normalize_one prefix (with_key_as_id k obj) k).
    split; [apply items_of_dict_In, Hin |]. split.
    + unfold with_key_as_id. rewrite Hno, Hk.
      unfold normalize_one, build_item. cbn [token_id].
      apply token_id_integer. rewrite dict_lookup_set. reflexivity.
    + apply normalize_one_stem. exact (py_int_not_empty k n Hk).
  - intros k' obj' H. unfold with_key_as_id. rewrite H. reflexivity.
Qed.

(** The object under the key [12] carries [edition: 3] and no [token_id]: its
    id is 12. *)
Lemma mapping_key_is_token_id_witness :
  exists it,
    In it (items_of_dict None [("12", VDict [("edition", VInt 3)])])
    /\ token_id it = Some 12 /\ stem it = "12".
Proof.
  destruct (mapping_key_is_token_id None [("12", VDict [("edition", VInt 3)])]
              "12" [("edition", VInt 3)] 12) as [H _].
  - left. reflexivity.
  - reflexivity.
  - reflexivity.
  - exact H.
Defined.

Lemma str_of_Z_inj x y : str_of_Z x = str_of_Z y -> x = y.
Proof.
  intros H. pose proof (py_int_str_of_Z x) as Hx. rewrite H, py_int_str_of_Z in Hx.
  injection Hx as ->. reflexivity.
Qed.

Lemma positions_increase raw : forall idx,
  Forall (fun p => idx <= fst p) (objects_of (numbered idx raw))
  /\ NoDup (map fst (objects_of (numbered idx raw))).
Proof.
  induction raw as [| v raw IH]; intros idx; [split; constructor |].
  cbn [numbered]. rewrite objects_of_cons.
  destruct (IH (idx + 1)) as [Hge Hnd].
  assert (Hge' : Forall (fun p : Z * dict => idx <= fst p)
                        (objects_of (numbered (idx + 1) raw))).
  { eapply Forall_impl; [| exact Hge]. intros p Hp. simpl in Hp. lia. }
  destruct v; cbn [is_object app]; try (split; assumption).
  split.
  - constructor; [simpl; lia | exact Hge'].
  - cbn [map fst]. constructor; [| exact Hnd].
    intros Hin. apply in_map_iff in Hin. destruct Hin as [[i o] [Hi Hp]].
    rewrite Forall_forall in Hge. specialize (Hge _ Hp). simpl in Hi, Hge. lia.
Qed.

Lemma NoDup_map_injective {A B : Type} (f : A -> B) (l : list A) :
  (forall x y, f x = f y -> x = y) -> NoDup l -> NoDup (map f l).
Proof.
  intros Hinj. induction 1 as [| x l Hx Hl IH]; simpl; constructor; [| exact IH].
  intros Hin. apply in_map_iff in Hin. destruct Hin as [y [Hy Hin]].
  apply Hinj in Hy. subst y. contradiction.
Qed.

Lemma append_cancel_r (t : string) : forall s1 s2,
  (s1 ++ t = s2 ++ t)%string -> s1 = s2.
Proof.
  induction s1 as [| c s1 IH]; intros [| c' s2] H; cbn [String.append] in H.
  - reflexivity.
  - exfalso. apply (f_equal String.length) in H. cbn [String.length] in H.
    rewrite append_length in H. lia.
  - exfalso. apply (f_equal String.length) in H. cbn [String.length] in H.
    rewrite append_length in H. lia.
  - injection H as -> H. f_equal. apply IH, H.
Qed.

(** X7: in list mode no two items share a stem, so the per-item CSVs of one
    run all have different names and none overwrites another, however many
    entries of the list were dropped. *)
Theorem list_mode_outputs_distinct (prefix : option string) (raw : list pyval) :
  NoDup (map stem (items_of_list prefix 1 raw))
  /\ NoDup (map (fun it => PerItem (stem it ++ ".csv"))
                (items_of_list prefix 1 raw)).
Proof.
  assert (Hstems : NoDup (map stem (items_of_list prefix 1 raw))).
  { rewrite items_of_list_numbered, map_map.
    rewrite (map_ext _ (fun p : Z * dict => str_of_Z (fst p))).
    - rewrite <- map_map. apply NoDup_map_injective; [exact str_of_Z_inj |].
      apply positions_increase.
    - intros [i o]. apply normalize_one_stem, str_of_Z_not_empty. }
  split; [exact Hstems |].
  rewrite <- (map_map stem (fun s => PerItem (s ++ ".csv"))).
  apply NoDup_map_injective; [| exact Hstems].
  intros x y H. injection H as H. exact (append_cancel_r _ _ _ H).
Qed.

(** ** Image normalization, once more *)

Lemma rstrip_keeps_http q :
  Str.rstrip Str.is_slash ("http" ++ q) = ("http" ++ Str.rstrip Str.is_slash q)%string.
Proof. reflexivity. Qed.

Lemma normalize_image_starts_http (s p : string) :
  Str.startswith "http" p = true ->
  Str.startswith "http" (normalize_image (VStr s) (Some p)) = true
  /\ Str.startswith "ipfs://" (normalize_image (VStr s) (Some p)) = false.
Proof.
  intros Hp. pose proof (startswith_split "http" p Hp) as Hsplit.
  cbn [String.length] in Hsplit. clear Hp.
  generalize dependent (Str.drop 4 p). intros q ->.
  assert (Hgiven : given (Some ("http" ++ q)%string) = Some ("http" ++ q)%string)
    by reflexivity.
  unfold normalize_image. rewrite Hgiven.
  destruct (Str.startswith "ipfs://" s || negb (Str.startswith "http" s)) eqn:Ec.
  - rewrite rstrip_keeps_http.
    remember (Str.lstrip Str.is_slash _) as tail.
    rewrite !append_assoc. split; [apply (startswith_app "http") | reflexivity].
  - apply orb_false_elim in Ec. destruct Ec as [Hi Hh].
    apply negb_false_iff in Hh. split; assumption.
Qed.

(** X8: with a gateway that itself starts with [http], every string image
    comes out of [normalize_image] starting with [http] and never with
    [ipfs://], and normalizing is idempotent: an image that went through
    comes out unchanged when it goes through again, so a rewritten URL is
    never prefixed twice. *)
Theorem normalize_image_idempotent (s p : string) :
  Str.startswith "http" p = true ->
  Str.startswith "http" (normalize_image (VStr s) (Some p)) = true
  /\ Str.startswith "ipfs://" (normalize_image (VStr s) (Some p)) = false
  /\ normalize_image (VStr (normalize_image (VStr s) (Some p))) (Some p)
     = normalize_image (VStr s) (Some p).
Proof.
  intros Hp. destruct (normalize_image_starts_http s p Hp) as [Hh Hi].
  split; [exact Hh |]. split; [exact Hi |].
  assert (Hgiven : given (Some p) = Some p).
  { destruct p; [discriminate Hp | reflexivity]. }
  generalize dependent (normalize_image (VStr s) (Some p)). intros r Hh Hi.
  unfold normalize_image. rewrite Hgiven, Hi, Hh. reflexivity.
Qed.

(** An [ipfs://] image behind [https://ipfs.io/ipfs], normalized twice. *)
Lemma normalize_image_idempotent_witness :
  normalize_image (VStr (normalize_image (VStr "ipfs://QmABC/1.png") gateway)) gateway
  = "https://ipfs.io/ipfs/QmABC/1.png".
Proof.
  unfold gateway.
  destruct (normalize_image_idempotent "ipfs://QmABC/1.png" "https://ipfs.io/ipfs" eq_refl)
    as [_ [_ H]].
  rewrite H. reflexivity.
Defined.

(** ** Ids, once more *)

Lemma digit_of_range c d : digit_of c = Some d -> 0 <= d <= 9.
Proof.
  unfold digit_of.
  destruct ((48 <=? N_of_ascii c)%N && (N_of_ascii c <=? 57)%N) eqn:E; [| discriminate].
  intros [= <-]. apply andb_prop in E. destruct E as [E1 E2].
  apply N.leb_le in E1, E2. lia.
Qed.

Lemma digits_fold_nonneg l : forall acc,
  0 <= acc ->
  0 <= fold_left (fun a c => 10 * a + match digit_of c with Some d => d | None => 0 end)
         l acc.
Proof.
  induction l as [| c l IH]; intros acc Hacc; cbn [fold_left]; [exact Hacc |].
  apply IH. destruct (digit_of c) as [d |] eqn:E; [| lia].
  apply digit_of_range in E. lia.
Qed.

(** X9: an id guessed from a file name is never negative: the digits are
    read without what stands before them, a minus sign included. *)
Theorem filename_id_not_negative (stem : string) (n : Z) :
  guess_token_id_from_filename stem = Some n -> 0 <= n.
Proof.
  unfold guess_token_id_from_filename.
  pose proof (search_digits_run stem) as Hrun.
  destruct (search_digits stem) as [run |]; [| discriminate].
  destruct Hrun as [pre [post [_ [_ [Hd _]]]]].
  rewrite (py_int_digit_run run Hd). intros [= <-].
  unfold digits_value. apply digits_fold_nonneg. lia.
Qed.

(** [nft-5] gives 5, while the JSON id ["-5"] is minus five. *)
Lemma filename_id_not_negative_witness :
  guess_token_id_from_filename "nft-5" = Some 5
  /\ 0 <= 5
  /\ get_token_id_from_json [("token_id", VStr "-5")] = Some (-5).
Proof.
  split; [reflexivity |]. split; [| reflexivity].
  apply (filename_id_not_negative "nft-5" 5). reflexivity.
Defined.

Lemma never_an_id_unreadable v : never_an_id v = true -> py_int (py_str v) = None.
Proof.
  destruct v as [| [] | | | | l | d]; intros H; try discriminate H; reflexivity.
Qed.

(** X10: [null], [true], [false], a list and an object never give an id,
    whatever they contain: a document whose id keys hold only such values has
    no JSON id, and in particular [true] is not read as 1. *)
Theorem non_scalar_ids_rejected :
  (forall v, never_an_id v = true -> py_int (py_str v) = None)
  /\ (forall d,
        (forall k v, In k id_keys -> dict_lookup k d = Some v -> never_an_id v = true) ->
        get_token_id_from_json d = None).
Proof.
  split; [exact never_an_id_unreadable |].
  intros d H. unfold get_token_id_from_json.
  induction id_keys as [| k ks IH]; [reflexivity |].
  cbn [token_id_among].
  assert (Hks : forall k' v, In k' ks -> dict_lookup k' d = Some v -> never_an_id v = true).
  { intros k' v Hin. apply H. right. exact Hin. }
  destruct (dict_lookup k d) as [v |] eqn:E; [| exact (IH Hks)].
  rewrite (never_an_id_unreadable v (H k v (or_introl eq_refl) E)). exact (IH Hks).
Qed.

(** [token_id: true] with [id: [7]]: no id. *)
Lemma non_scalar_ids_rejected_witness :
  get_token_id_from_json [("token_id", VBool true); ("id", VList [VInt 7])] = None.
Proof.
  destruct non_scalar_ids_rejected as [_ H]. apply H.
  intros k v Hk. simpl in Hk.
  repeat (destruct Hk as [Hk | Hk]; [subst k; cbn; intros [= <-]; reflexivity |]);
    try (destruct Hk as [Hk | Hk]; [subst k; cbn; discriminate |]).
  all: try contradiction.
Defined.

(** ** The folder listing *)

Lemma ltb_false_leb x y : String.ltb y x = false -> String.leb x y = true.
Proof.
  unfold String.ltb, String.leb. rewrite (String.compare_antisym x y).
  destruct (String.compare y x); simpl; intros H; try reflexivity; discriminate H.
Qed.

Lemma ltb_true_leb x y : String.ltb y x = true -> String.leb y x = true.
Proof.
  unfold String.ltb, String.leb.
  destruct (String.compare y x); intros H; try reflexivity; discriminate H.
Qed.

Lemma insert_name_perm x l : Permutation (x :: l) (insert_name x l).
Proof.
  induction l as [| y r IH]; cbn [insert_name]; [apply Permutation_refl |].
  destruct (String.ltb y x); [| apply Permutation_refl].
  eapply perm_trans; [apply perm_swap | apply perm_skip, IH].
Qed.

Lemma sorted_names_perm l : Permutation l (sorted_names l).
Proof.
  induction l as [| x r IH]; cbn [sorted_names]; [constructor |].
  eapply perm_trans; [apply perm_skip, IH | apply insert_name_perm].
Qed.

Lemma insert_name_sorted x l :
  Sorted (fun s t => String.leb s t = true) l ->
  Sorted (fun s t => String.leb s t = true) (insert_name x l).
Proof.
  induction 1 as [| y r Hr IH Hy]; cbn [insert_name]; [repeat constructor |].
  destruct (String.ltb y x) eqn:E.
  - constructor; [exact IH |].
    destruct r as [| z r']; cbn [insert_name].
    + constructor. exact (ltb_true_leb _ _ E).
    + destruct (String.ltb z x).
      * constructor. inversion Hy; assumption.
      * constructor. exact (ltb_true_leb _ _ E).
  - constructor; [constructor; assumption |].
    constructor. exact (ltb_false_leb _ _ E).
Qed.

Lemma sorted_names_sorted l : Sorted (fun s t => String.leb s t = true) (sorted_names l).
Proof.
  induction l as [| x r IH]; cbn [sorted_names]; [constructor | apply insert_name_sorted, IH].
Qed.

(** X11: [read_all_json] returns exactly the entries of the folder whose
    suffix is [.json] in any mix of upper and lower case, each as often as it
    is listed, arranged so that every name is at most the next one in
    character order; the order is that of text, not of numbers, so
    [10.json] is read before [2.json]. *)
Theorem read_all_json_sorted_selection :
  (forall (lib : PathLib) entries,
     Permutation (filter is_json_name entries) (read_all_json entries)
     /\ Sorted (fun s t => String.leb s t = true) (read_all_json entries)
     /\ forall n, In n (read_all_json entries)
                  <-> In n entries /\ lower (path_suffix n) = ".json")
  /\ read_all_json (lib := PlainNames.lib)
       ["2.json"; "notes.txt"; "10.json"; "b.JSON"; "a.json.bak"]
     = ["10.json"; "2.json"; "b.JSON"].
Proof.
  split; [| reflexivity].
  intros lib entries. unfold read_all_json. split; [apply sorted_names_perm |].
  split; [apply sorted_names_sorted |].
  intros n. split.
  - intros H. apply (Permutation_in _ (Permutation_sym (sorted_names_perm _))) in H.
    apply filter_In in H. destruct H as [Hin Hj]. split; [exact Hin |].
    apply String.eqb_eq. exact Hj.
  - intros [Hin Hj]. apply (Permutation_in _ (sorted_names_perm _)).
    apply filter_In. split; [exact Hin |]. apply String.eqb_eq. exact Hj.
Qed.

(** ** Traits and the image extension *)

Lemma dict_set_length {V : Type} (k : string) (v : V) (d : list (string * V)) :
  (List.length (dict_set k v d) <= S (List.length d))%nat.
Proof.
  induction d as [| [k0 v0] d IH]; simpl; [lia |].
  destruct (String.eqb k k0); simpl; lia.
Qed.

Lemma traits_length atts : forall m,
  (List.length (fold_left add_trait atts m) <= List.length m + count_objects atts)%nat.
Proof.
  unfold count_objects.
  induction atts as [| a atts IH]; intros m; cbn [fold_left filter]; [simpl; lia |].
  specialize (IH (add_trait m a)).
  destruct a; cbn [add_trait is_object] in *; try exact IH.
  destruct (truthy (trait_name_of d)).
  - pose proof (dict_set_length (py_str (trait_name_of d))
                  (dict_get_default "value" (VStr "") d) m).
    cbn [List.length]. lia.
  - cbn [List.length]. lia.
Qed.

(** X12: the trait mapping of a document is empty when it has no
    [attributes], when [attributes] is the empty list and when it is anything
    but a list; otherwise it has at most one trait per attribute entry that
    is an object. *)
Theorem traits_bounded_by_attributes (d : dict) :
  match dict_lookup "attributes" d with
  | None => extract_traits d = []
  | Some (VList atts) =>
      (List.length (extract_traits d) <= count_objects atts)%nat
      /\ (atts = [] -> extract_traits d = [])
  | Some _ => extract_traits d = []
  end.
Proof.
  unfold extract_traits, dict_get_default.
  destruct (dict_lookup "attributes" d) as [v |]; [| reflexivity].
  destruct v; try reflexivity.
  split; [apply (traits_length l []) | intros ->; reflexivity].
Qed.

(** X13: the [image_ext] handed to the template is never empty, whatever the
    path functions return; for an item whose image is missing, empty or not a
    string the image name is empty, and the extension is [.png] as soon as
    the empty name has no suffix. *)
Theorem image_ext_never_empty (lib : PathLib) (tid : option Z) (stem : string)
    (image_raw : pyval) :
  (exists e, dict_get "image_ext" (filename_kwargs tid stem image_raw) = VStr e
             /\ Str.is_empty e = false)
  /\ (truthy image_raw && is_string image_raw = false ->
      dict_get "image_name" (filename_kwargs tid stem image_raw) = VStr ""
      /\ (path_suffix "" = "" ->
          dict_get "image_ext" (filename_kwargs tid stem image_raw) = VStr ".png")).
Proof.
  assert (Hname : py_str (py_or (VStr (basename_from_url_or_path image_raw)) (VStr ""))
                  = basename_from_url_or_path image_raw).
  { unfold py_or. destruct (basename_from_url_or_path image_raw); reflexivity. }
  assert (Hext : dict_get "image_ext" (filename_kwargs tid stem image_raw)
                 = VStr (if Str.is_empty (path_suffix (basename_from_url_or_path image_raw))
                         then ".png"
                         else path_suffix (basename_from_url_or_path image_raw))).
  { unfold filename_kwargs, dict_get. cbn [dict_lookup String.eqb Ascii.eqb Bool.eqb].
    rewrite Hname. unfold ext_from_name, py_or.
    destruct (path_suffix (basename_from_url_or_path image_raw)); reflexivity. }
  split.
  - rewrite Hext. eexists. split; [reflexivity |].
    destruct (path_suffix (basename_from_url_or_path image_raw)); reflexivity.
  - intros Himg.
    assert (Hbase : basename_from_url_or_path image_raw = "").
    { destruct image_raw; try reflexivity. destruct s; [reflexivity | discriminate]. }
    split.
    + unfold filename_kwargs, dict_get. cbn [dict_lookup String.eqb Ascii.eqb Bool.eqb].
      rewrite Hbase. reflexivity.
    + intros Hsuf. rewrite Hext, Hbase, Hsuf. reflexivity.
Qed.

(** An item without an image, rendered with [{token_id}{image_ext}]. *)
Lemma image_ext_never_empty_witness :
  dict_get "image_name" (filename_kwargs (lib := PlainNames.lib) (Some 5) "5" (VStr ""))
  = VStr ""
  /\ dict_get "image_ext" (filename_kwargs (lib := PlainNames.lib) (Some 5) "5" (VStr ""))
     = VStr ".png"
  /\ render_filename_col (lib := PlainNames.lib) "{token_id}{image_ext}" (Some 5) "5" (VStr "")
     = Ok "5.png".
Proof.
  destruct (image_ext_never_empty PlainNames.lib (Some 5) "5" (VStr "")) as [_ H].
  destruct (H eq_refl) as [Hn He].
  split; [exact Hn |]. split; [exact (He eq_refl) | reflexivity].
Defined.

(** ** An aggregated run from end to end *)

Lemma Forall2_same_length {A B : Type} (R : A -> B -> Prop) l1 l2 :
  Forall2 R l1 l2 -> List.length l1 = List.length l2.
Proof. induction 1; simpl; congruence. Qed.

(** X14: an aggregated run over a top-level list that completes has written,
    last, one aggregated CSV, at the path given with [--aggregate] or else at
    [metadata.csv], holding the header rows and exactly one data row per
    object of the list; before it, one per-item CSV per object when
    [--emit-per-file] is set, and none otherwise. *)
Theorem aggregated_run_rows (lib : PathLib) (a : args) (w : world)
    (path : string) (raw : list pyval) :
  given (metadata a) = Some path ->
  file_at w path = Some (Decoded (VList raw)) ->
  status (main a w) = Ok tt ->
  exists per rows,
    events (main a w)
    = per ++ [Wrote (Aggregate (match given (aggregate a) with
                                | Some p => p
                                | None => "metadata.csv"
                                end))
                    (header_rows a (batch_order a w) ++ rows)]
    /\ List.length rows = count_objects raw
    /\ List.length per = (if emit_per_file a then count_objects raw else O).
Proof.
  intros Hm Hf. unfold batch_order, batch_items, main. rewrite Hm, Hf.
  cbn [load_metadata_file].
  set (items := items_of_list (image_prefix a) 1 raw).
  assert (Hcount : List.length items = count_objects raw).
  { unfold items. rewrite items_of_list_numbered, length_map.
    apply objects_of_numbered_length. }
  set (items_list := map (fun it => (PerItem (stem it ++ ".csv")%string, it)) items).
  assert (Hsnd : map snd items_list = items).
  { unfold items_list. rewrite map_map. apply map_id. }
  intros Hst. destruct (emit_layout a false items_list Hst) as [per [agg [Hev [Hper Hagg]]]].
  rewrite Hsnd in *. unfold agg_path in Hagg.
  assert (Hdest : exists rows,
             agg = [Wrote (Aggregate (match given (aggregate a) with
                                      | Some p => p
                                      | None => "metadata.csv"
                                      end))
                          (header_rows a (unify_traits items) ++ rows)]
             /\ List.length rows = List.length items).
  { destruct (given (aggregate a)) as [p |]; destruct Hagg as [rows [Hagg Hrows]];
      exists rows; (split; [exact Hagg |]);
      apply Forall2_same_length in Hrows; rewrite <- Hrows;
      (destruct (do_sort a);
       [symmetry; apply Permutation_length, sort_by_token_id_perm | reflexivity]). }
  destruct Hdest as [rows [-> Hrows]].
  exists per, rows. split; [exact Hev |]. split; [congruence |].
  cbn [orb] in Hper. destruct (emit_per_file a).
  - apply Forall2_same_length in Hper. unfold items_list in Hper.
    rewrite length_map in Hper. congruence.
  - subst per. reflexivity.
Qed.

(** The three-entry run: two per-item CSVs, then [metadata.csv] with two
    data rows. *)
Lemma aggregated_run_rows_witness :
  exists per rows,
    events (main (lib := PlainNames.lib) metadata_args metadata_world)
    = per ++ [Wrote (Aggregate (match given (aggregate metadata_args) with
                                | Some p => p
                                | None => "metadata.csv"
                                end))
                    (header_rows metadata_args (batch_order metadata_args metadata_world)
                     ++ rows)]
    /\ List.length rows
       = count_objects [ token (VInt 3) [attribute "A" (VInt 1)];
                         VInt 5;
                         token (VInt 1) [attribute "B" (VInt 2)] ]
    /\ List.length per
       = (if emit_per_file metadata_args
          then count_objects [ token (VInt 3) [attribute "A" (VInt 1)];
                               VInt 5;
                               token (VInt 1) [attribute "B" (VInt 2)] ]
          else O).
Proof.
  apply (aggregated_run_rows PlainNames.lib metadata_args metadata_world "metadata.json");
    reflexivity.
Defined.

(** ** A folder run from end to end *)

Lemma filter_split_length {A : Type} (p : A -> bool) (l : list A) :
  (List.length (filter p l) + List.length (filter (fun x => negb (p x)) l)
   = List.length l)%nat.
Proof.
  induction l as [| x l IH]; [reflexivity |].
  cbn [filter]. destruct (p x); cbn [negb List.length]; lia.
Qed.

Lemma kept_sources a files :
  Forall2 (fun f p => fst p = PerFileOf (file_name f))
          (filter (fun f => negb (unreadable a f)) files) (kept a files).
Proof.
  unfold kept, unreadable. induction files as [| f files IH]; [constructor |].
  cbn [filter flat_map]. destruct (parsed a f); cbn [negb app].
  - constructor; [reflexivity | exact IH].
  - exact IH.
Qed.

Lemma Forall2_chain {A B C : Type} (R : A -> B -> Prop) (S : B -> C -> Prop)
    (T : A -> C -> Prop) :
  (forall x y z, R x y -> S y z -> T x z) ->
  forall l1 l2 l3, Forall2 R l1 l2 -> Forall2 S l2 l3 -> Forall2 T l1 l3.
Proof.
  intros H l1 l2 l3 H12. revert l3.
  induction H12 as [| x y l1 l2 Hxy _ IH]; intros l3 H23; inversion H23; subst.
  - constructor.
  - constructor; [eapply H; eassumption | apply IH; assumption].
Qed.

(** X15: a folder run that completes accounts for every file of the listing.
    It warns about the unreadable ones, then writes one CSV beside each of the
    others, in listing order, so warnings and per-file CSVs together are as
    many as the files; the aggregated CSV comes last, only with
    [--aggregate], and has one data row per file that was read. *)
Theorem folder_run_accounts_for_every_file (lib : PathLib) (a : args) (w : world) :
  given (metadata a) = None ->
  json_dir w <> [] ->
  status (main a w) = Ok tt ->
  exists per agg,
    events (main a w)
    = map (fun f => Warned (file_name f)) (filter (unreadable a) (json_dir w))
      ++ per ++ agg
    /\ Forall2 (fun f e => exists rows, e = Wrote (PerFileOf (file_name f)) rows)
               (filter (fun f => negb (unreadable a f)) (json_dir w)) per
    /\ (List.length (filter (unreadable a) (json_dir w)) + List.length per
        = List.length (json_dir w))%nat
    /\ match given (aggregate a) with
       | Some p =>
           exists rows,
             agg = [Wrote (Aggregate p) (header_rows a (batch_order a w) ++ rows)]
             /\ List.length rows = List.length per
       | None => agg = []
       end.
Proof.
  intros Hm Hne. rewrite (main_folder a w Hm Hne). cbn [status events].
  intros Hst.
  destruct (emit_layout a true _ Hst) as [per [agg [Hev [Hper Hagg]]]].
  cbn [orb] in Hper. exists per, agg.
  assert (Hsrc : Forall2 (fun f e => exists rows, e = Wrote (PerFileOf (file_name f)) rows)
                         (filter (fun f => negb (unreadable a f)) (json_dir w)) per).
  { refine (Forall2_chain _ _ _ _ _ _ _ (kept_sources a (json_dir w)) Hper).
    intros f p e Hf [r [_ He]]. rewrite Hf in He. eexists. exact He. }
  split; [rewrite Hev; reflexivity |]. split; [exact Hsrc |]. split.
  - apply Forall2_same_length in Hsrc. rewrite <- Hsrc. apply filter_split_length.
  - unfold batch_order, batch_items. rewrite Hm.
    unfold agg_path in Hagg. destruct (given (aggregate a)) as [p |]; [| exact Hagg].
    destruct Hagg as [rows [Hagg Hrows]]. exists rows. split; [exact Hagg |].
    apply Forall2_same_length in Hrows. apply Forall2_same_length in Hper.
    rewrite <- Hrows, <- Hper.
    destruct (do_sort a).
    + rewrite <- (Permutation_length (sort_by_token_id_perm _)). apply length_map.
    + apply length_map.
Qed.

(** The folder of three files, the second undecodable: one warning, two
    per-file CSVs, and [nfts.csv] with two rows. *)
Lemma folder_run_accounts_for_every_file_witness :
  exists per agg,
    events (main (lib := PlainNames.lib) folder_args folder_world)
    = map (fun f => Warned (file_name f))
          (filter (unreadable folder_args) (json_dir folder_world))
      ++ per ++ agg
    /\ Forall2 (fun f e => exists rows, e = Wrote (PerFileOf (file_name f)) rows)
               (filter (fun f => negb (unreadable folder_args f)) (json_dir folder_world))
               per
    /\ (List.length (filter (unreadable folder_args) (json_dir folder_world))
        + List.length per
        = List.length (json_dir folder_world))%nat
    /\ match given (aggregate folder_args) with
       | Some p =>
           exists rows,
             agg = [Wrote (Aggregate p)
                      (header_rows folder_args (batch_order folder_args folder_world)
                       ++ rows)]
             /\ List.length rows = List.length per
       | None => agg = []
       end.
Proof.
  apply (folder_run_accounts_for_every_file PlainNames.lib folder_args folder_world).
  - reflexivity.
  - discriminate.
  - reflexivity.
Defined.
